(** * actaboards-core: the PostgreSQL content projector and room creation

    A shallow embedding of

    - [libraries/plugins/postgres_content/postgres_content_plugin.cpp]: the
      plugin that, on every applied block, writes content cards and
      permissions to two PostgreSQL tables;
    - [libraries/protocol/room.cpp]: the validation of the room-create
      operation.

    The plugin builds SQL text and hands it to libpq.  The text is embedded
    as a small abstract syntax ([statement]) that keeps the column lists, the
    VALUES, the ON CONFLICT target and the SET clauses of every statement in
    the order the source writes them; the server is embedded as an
    interpreter of that syntax over the rows of the two tables. *)

From stdpp Require Import base strings gmap list pretty.
From Stdlib Require Import ZArith Ascii.

Local Open Scope string_scope.

(** ** Chain data read by the plugin *)

(** [object_id_type]: space, type and instance of a chain object. *)
Record object_id_type := {
  space : N;
  type_id : N;
  instance : N
}.

Global Instance object_id_type_eq_dec : EqDecision object_id_type.
Proof. solve_decision. Defined.

(** Modelled from the spec: [std::string(object_id_type)] lives in the
    protocol library, outside the files at hand; the spec writes identifiers
    as [1.7.3] and [1.2.5]: the three numbers in decimal, joined by dots. *)
Definition object_id_to_string (o : object_id_type) : string :=
  pretty (space o) +:+ "." +:+ pretty (type_id o) +:+ "." +:+ pretty (instance o).

(** [std::string::empty]. *)
Definition empty (s : string) : bool :=
  match s with
  | EmptyString => true
  | String _ _ => false
  end.

(** [std::to_string] on a [size_t]. *)
Definition to_string (i : nat) : string := pretty i.

(** [asset]: [amount] is a [share_type], a signed 64-bit number. *)
Record asset := {
  amount : Z;
  asset_id : object_id_type
}.

(** The operations the plugin projects.  Only the members the plugin reads
    are listed; [optional<T>] is [option T], [vector<T>] is [list T]. *)
Module content_card_create_operation.
Record t := {
    subject_account : object_id_type;
    hash : string;
    url : string;
    type : string;
    description : string;
    content_key : string;
    storage_data : string
  }.
End content_card_create_operation.

Module content_card_update_operation.
Record t := {
    subject_account : object_id_type;
    hash : string;
    url : string;
    type : string;
    description : string;
    content_key : string;
    storage_data : string
  }.
End content_card_update_operation.

Module content_card_remove_operation.
Record t := {
    content_id : object_id_type
  }.
End content_card_remove_operation.

Module permission_create_operation.
Record t := {
    subject_account : object_id_type;
    operator_account : object_id_type;
    permission_type : string;
    object_id : option object_id_type;
    content_key : string
  }.
End permission_create_operation.

Module permission_remove_operation.
Record t := {
    permission_id : object_id_type
  }.
End permission_remove_operation.

Module permission_create_many_operation.
(** One entry of the [permissions] vector. *)
Record item := {
    operator_account : object_id_type;
    permission_type : string;
    object_id : option object_id_type;
    content_key : string
  }.
Record t := {
    subject_account : object_id_type;
    permissions : list item
  }.
End permission_create_many_operation.

(** The tags [on_block] compares [op.which()] with. *)
Definition projected_tag (tag : N) : bool :=
  ((tag =? 41) || (tag =? 42) || (tag =? 43) || (tag =? 44) || (tag =? 45)
   || (tag =? 64))%N.

(** [operation] is a static variant: one alternative per operation of the
    chain.  The six alternatives the plugin reads carry their payload; every
    other alternative is kept by its tag alone, which by construction is not
    one of the six. *)
Inductive operation :=
| content_card_create (o : content_card_create_operation.t)
| content_card_update (o : content_card_update_operation.t)
| content_card_remove (o : content_card_remove_operation.t)
| permission_create (o : permission_create_operation.t)
| permission_remove (o : permission_remove_operation.t)
| permission_create_many (o : permission_create_many_operation.t)
| other_operation (tag : N) (not_projected : projected_tag tag = false).

(** [static_variant::which]. *)
Definition which (op : operation) : N :=
  match op with
  | content_card_create _ => 41
  | content_card_update _ => 42
  | content_card_remove _ => 43
  | permission_create _ => 44
  | permission_remove _ => 45
  | permission_create_many _ => 64
  | other_operation tag _ => tag
  end.

(** [static_variant::get<T>] asserts that the variant holds a [T] and throws
    otherwise: [None] stands for the exception. *)
Definition get_content_card_create (op : operation) :=
  match op with content_card_create o => Some o | _ => None end.
Definition get_content_card_update (op : operation) :=
  match op with content_card_update o => Some o | _ => None end.
Definition get_content_card_remove (op : operation) :=
  match op with content_card_remove o => Some o | _ => None end.
Definition get_permission_create (op : operation) :=
  match op with permission_create o => Some o | _ => None end.
Definition get_permission_remove (op : operation) :=
  match op with permission_remove o => Some o | _ => None end.
Definition get_permission_create_many (op : operation) :=
  match op with permission_create_many o => Some o | _ => None end.

(** [generic_operation_result]: [new_objects] is a [flat_set], kept as the
    sequence of its elements from [begin()] to [end()]. *)
Record generic_operation_result := {
  new_objects : list object_id_type
}.

(** [operation_result]: void_result(0), object_id_type(1), asset(2),
    generic_operation_result(3), and whatever alternative comes after. *)
Inductive operation_result :=
| void_result
| object_id_result (id : object_id_type)
| asset_result (a : asset)
| generic_result (r : generic_operation_result)
| other_result (tag : N) (later : (3 <? tag)%N = true).

Definition result_which (result : operation_result) : N :=
  match result with
  | void_result => 0
  | object_id_result _ => 1
  | asset_result _ => 2
  | generic_result _ => 3
  | other_result tag _ => tag
  end.

Definition get_object_id_type (result : operation_result) :=
  match result with object_id_result id => Some id | _ => None end.
Definition get_generic_operation_result (result : operation_result) :=
  match result with generic_result r => Some r | _ => None end.

Record operation_history_object := {
  op : operation;
  result : operation_result;
  trx_in_block : N
}.

(** A transaction of a block, by [id().str()]. *)
Record processed_transaction := {
  id_str : string
}.

Record signed_block := {
  block_num : N;
  timestamp : N; (* time_point_sec: seconds since the epoch *)
  transactions : list processed_transaction
}.

(** [graphene::chain::database], as far as [on_block] reads it. *)
Record database := {
  get_applied_operations : list (option operation_history_object)
}.

(** ** SQL text *)

(** The pieces the plugin concatenates into the place of a value. *)
Inductive sql_expr :=
| Literal (s : string)      (* the quoted literal PQescapeLiteral returns for s *)
| Unquoted (s : string)     (* text spliced in as it is *)
| Number (n : N)            (* std::to_string(n), or a number written in the text *)
| to_timestamp (sec : N)    (* to_timestamp(<n>) *)
| TRUE
| FALSE
| EXCLUDED (column : string).

Inductive statement :=
| INSERT_INTO (table : string) (columns : list string) (values : list sql_expr)
    (on_conflict : string) (do_update_set : list (string * sql_expr))
| UPDATE (table : string) (set : list (string * sql_expr))
    (where_column : string) (where_value : sql_expr).

Global Instance sql_expr_eq_dec : EqDecision sql_expr.
Proof. solve_decision. Defined.
Global Instance statement_eq_dec : EqDecision statement.
Proof. solve_decision. Defined.

(** ** The server *)

Inductive sql_value :=
| SqlText (s : string)
| SqlInt (n : N)
| SqlTimestamp (sec : N)
| SqlBool (b : bool).

Global Instance sql_value_eq_dec : EqDecision sql_value.
Proof. solve_decision. Defined.

(** A row gives a value to each column a statement has written.  The columns
    [id] and [created_at] of [create_tables] are filled by the server's
    defaults and no statement of the plugin names them: they are left out. *)
Abbreviation row := (gmap string sql_value).

(** The rows of all tables, found by table name and by the text in the
    table's UNIQUE column. *)
Abbreviation table_rows := (gmap (string * string) row).

(** The UNIQUE constraints of [create_tables]. *)
Definition unique_column (table : string) : option string :=
  if decide (table = "indexer_content_cards") then Some "content_card_id"
  else if decide (table = "indexer_permissions") then Some "permission_id"
  else None.

(** The value of an expression; [excluded] is the row proposed for insertion,
    where there is one.  A literal has the value of its text; the cast of a
    text to a VARCHAR(n) column, which leaves a text within the width as it
    is, is not part of the value ([within_widths] below says that the texts
    of a row are within the widths). *)
Definition eval (excluded : option row) (e : sql_expr) : option sql_value :=
  match e with
  | Literal s => Some (SqlText s)
  | Unquoted _ => None
  | Number n => Some (SqlInt n)
  | to_timestamp sec => Some (SqlTimestamp sec)
  | TRUE => Some (SqlBool true)
  | FALSE => Some (SqlBool false)
  | EXCLUDED column => excluded ≫= (.!! column)
  end.

Fixpoint eval_set (excluded : option row) (set : list (string * sql_expr))
  : option (list (string * sql_value)) :=
  match set with
  | [] => Some []
  | (column, e) :: set =>
      v ← eval excluded e;
      vs ← eval_set excluded set;
      Some ((column, v) :: vs)
  end.

Fixpoint eval_values (columns : list string) (values : list sql_expr)
  : option (list (string * sql_value)) :=
  match columns, values with
  | [], [] => Some []
  | column :: columns, e :: values =>
      v ← eval None e;
      vs ← eval_values columns values;
      Some ((column, v) :: vs)
  | _, _ => None
  end.

Definition text_of (v : sql_value) : option string :=
  match v with SqlText s => Some s | _ => None end.

(** What a statement that passed analysis does to the one row it addresses. *)
Inductive effect :=
| upsert (table key : string) (proposed : row) (set : list (string * sql_value))
| modify (table key : string) (set : list (string * sql_value)).

(** SET column = value, one after the other. *)
Definition assign (old : row) (set : list (string * sql_value)) : row :=
  foldl (λ r cv, <[cv.1 := cv.2]> r) old set.

(** Analysis: the table exists, the row is addressed through the table's
    UNIQUE column, and every expression has a value. *)
Definition analyse (sql : statement) : option effect :=
  match sql with
  | INSERT_INTO table columns values on_conflict do_update_set =>
      target ← unique_column table;
      if decide (target = on_conflict) then
        vs ← eval_values columns values;
        let proposed : row := list_to_map vs in
        key ← proposed !! target ≫= text_of;
        set ← eval_set (Some proposed) do_update_set;
        Some (upsert table key proposed set)
      else None
  | UPDATE table set where_column where_value =>
      target ← unique_column table;
      if decide (target = where_column) then
        key ← eval None where_value ≫= text_of;
        set ← eval_set None set;
        Some (modify table key set)
      else None
  end.

Definition run (e : effect) (rows : table_rows) : table_rows :=
  match e with
  | upsert table key proposed set =>
      match rows !! (table, key) with
      | None => <[(table, key) := proposed]> rows
      | Some old => <[(table, key) := assign old set]> rows
      end
  | modify table key set =>
      match rows !! (table, key) with
      | None => rows
      | Some old => <[(table, key) := assign old set]> rows
      end
  end.

Inductive ExecStatusType :=
| PGRES_COMMAND_OK
| PGRES_TUPLES_OK
| PGRES_FATAL_ERROR.

Global Instance ExecStatusType_eq_dec : EqDecision ExecStatusType.
Proof. solve_decision. Defined.

(** A live connection: the rows behind it and the statements it was sent,
    oldest first. *)
Record PGconn := {
  rows : table_rows;
  sent : list statement
}.

Record postgres_content_plugin_impl := {
  pg_conn : option PGconn;
  _start_block : N
}.

(** ** The plugin *)

(** Two verdicts of PostgreSQL that the plugin's text does not decide:
    whether libpq can quote a text ([PQescapeLiteral] returns NULL for text
    that is invalid in the client encoding), and whether the server takes an
    analysed statement (the column types and widths of [create_tables]). *)
Class PostgreSQL := {
  PQescapable : string → bool;
  server_accepts : statement → bool
}.

Section postgres_content_plugin.

Context `{pg : PostgreSQL}.

(** The bytes libpq reads of a text it is handed as [input.c_str()] and
    [input.length()]: it stops at the first zero byte, like strncpy. *)
Fixpoint up_to_zero (input : string) : string :=
  match input with
  | EmptyString => EmptyString
  | String c rest =>
      if Ascii.eqb c Ascii.zero then EmptyString else String c (up_to_zero rest)
  end.

(** [PQescapeLiteral]: the quoted literal of the bytes read, or NULL. *)
Definition PQescapeLiteral (conn : PGconn) (input : string) : option sql_expr :=
  let read := up_to_zero input in
  if PQescapable read then Some (Literal read) else None.

(** [PQexec] followed by [PQresultStatus]: the statement is recorded as sent;
    it changes the rows when the server takes it. *)
Definition PQexec (conn : PGconn) (sql : statement) : ExecStatusType * PGconn :=
  let conn' := {| rows := rows conn; sent := sent conn ++ [sql] |} in
  if server_accepts sql then
    match analyse sql with
    | Some e => (PGRES_COMMAND_OK, {| rows := run e (rows conn); sent := sent conn' |})
    | None => (PGRES_FATAL_ERROR, conn')
    end
  else (PGRES_FATAL_ERROR, conn').

Definition escape_string (my : postgres_content_plugin_impl) (input : string)
  : sql_expr :=
  match pg_conn my with
  | None => Unquoted input
  | Some conn =>
      match PQescapeLiteral conn input with
      | None => Literal ""   (* the text '' *)
      | Some escaped => escaped
      end
  end.

(** The calls of [elog] and [ilog] write to the node's log and are left out
    here and in the handlers. *)
Definition execute_sql (sql : statement) (my : postgres_content_plugin_impl)
  : bool * postgres_content_plugin_impl :=
  match pg_conn my with
  | None => (false, my)
  | Some conn =>
      let '(status, conn') := PQexec conn sql in
      let success :=
        bool_decide (status = PGRES_COMMAND_OK ∨ status = PGRES_TUPLES_OK) in
      (success, {| pg_conn := Some conn'; _start_block := _start_block my |})
  end.

Definition get_object_id_from_result (result : operation_result) : option string :=
  if (result_which result =? 1)%N then
    id ← get_object_id_type result;
    Some (object_id_to_string id)
  else Some "".

(** The text [sql] of [handle_content_card_create]. *)
Definition content_card_create_sql (my : postgres_content_plugin_impl)
    (op : content_card_create_operation.t) (block_num block_time : N)
    (trx_id object_id : string) : statement :=
  let subject_account :=
    object_id_to_string (content_card_create_operation.subject_account op) in
  let content_card_id :=
    if empty object_id then "pending-" +:+ trx_id else object_id in
  INSERT_INTO "indexer_content_cards"
    ["content_card_id"; "subject_account"; "hash"; "url"; "type"; "description";
     "content_key"; "storage_data"; "block_num"; "block_time"; "trx_id";
     "operation_type"; "is_removed"]
    [escape_string my content_card_id;
     escape_string my subject_account;
     escape_string my (content_card_create_operation.hash op);
     escape_string my (content_card_create_operation.url op);
     escape_string my (content_card_create_operation.type op);
     escape_string my (content_card_create_operation.description op);
     escape_string my (content_card_create_operation.content_key op);
     escape_string my (content_card_create_operation.storage_data op);
     Number block_num;
     to_timestamp block_time;
     escape_string my trx_id;
     Number 41; FALSE]
    "content_card_id"
    [("hash", EXCLUDED "hash"); ("url", EXCLUDED "url"); ("type", EXCLUDED "type");
     ("description", EXCLUDED "description");
     ("content_key", EXCLUDED "content_key");
     ("storage_data", EXCLUDED "storage_data")].

Definition handle_content_card_create (op : content_card_create_operation.t)
    (block_num block_time : N) (trx_id object_id : string)
    (my : postgres_content_plugin_impl) : postgres_content_plugin_impl :=
  (execute_sql (content_card_create_sql my op block_num block_time trx_id object_id)
     my).2.

(** The text [sql] of [handle_content_card_update]. *)
Definition content_card_update_sql (my : postgres_content_plugin_impl)
    (op : content_card_update_operation.t) (block_num block_time : N)
    (trx_id object_id : string) : statement :=
  let subject_account :=
    object_id_to_string (content_card_update_operation.subject_account op) in
  let content_card_id :=
    if empty object_id then "pending-" +:+ trx_id else object_id in
  INSERT_INTO "indexer_content_cards"
    ["content_card_id"; "subject_account"; "hash"; "url"; "type"; "description";
     "content_key"; "storage_data"; "block_num"; "block_time"; "trx_id";
     "operation_type"; "is_removed"]
    [escape_string my content_card_id;
     escape_string my subject_account;
     escape_string my (content_card_update_operation.hash op);
     escape_string my (content_card_update_operation.url op);
     escape_string my (content_card_update_operation.type op);
     escape_string my (content_card_update_operation.description op);
     escape_string my (content_card_update_operation.content_key op);
     escape_string my (content_card_update_operation.storage_data op);
     Number block_num;
     to_timestamp block_time;
     escape_string my trx_id;
     Number 42; FALSE]
    "content_card_id"
    [("hash", EXCLUDED "hash"); ("url", EXCLUDED "url"); ("type", EXCLUDED "type");
     ("description", EXCLUDED "description");
     ("content_key", EXCLUDED "content_key");
     ("storage_data", EXCLUDED "storage_data");
     ("block_num", EXCLUDED "block_num");
     ("block_time", EXCLUDED "block_time");
     ("operation_type", Number 42)].

Definition handle_content_card_update (op : content_card_update_operation.t)
    (block_num block_time : N) (trx_id object_id : string)
    (my : postgres_content_plugin_impl) : postgres_content_plugin_impl :=
  (execute_sql (content_card_update_sql my op block_num block_time trx_id object_id)
     my).2.

(** The text [sql] of [handle_content_card_remove]. *)
Definition content_card_remove_sql (my : postgres_content_plugin_impl)
    (op : content_card_remove_operation.t) (block_num block_time : N)
    (trx_id : string) : statement :=
  let content_id :=
    object_id_to_string (content_card_remove_operation.content_id op) in
  UPDATE "indexer_content_cards"
    [("is_removed", TRUE);
     ("block_num", Number block_num);
     ("block_time", to_timestamp block_time);
     ("operation_type", Number 43)]
    "content_card_id" (escape_string my content_id).

Definition handle_content_card_remove (op : content_card_remove_operation.t)
    (block_num block_time : N) (trx_id : string)
    (my : postgres_content_plugin_impl) : postgres_content_plugin_impl :=
  (execute_sql (content_card_remove_sql my op block_num block_time trx_id) my).2.

(** [op.object_id.valid() ? std::string(object_id_type( *op.object_id)) : ""]. *)
Definition ref_object_id_string (object_id : option object_id_type) : string :=
  match object_id with
  | Some id => object_id_to_string id
  | None => ""
  end.

(** The text [sql] of [handle_permission_create]. *)
Definition permission_create_sql (my : postgres_content_plugin_impl)
    (op : permission_create_operation.t) (block_num block_time : N)
    (trx_id new_object_id : string) : statement :=
  let subject_account :=
    object_id_to_string (permission_create_operation.subject_account op) in
  let operator_account :=
    object_id_to_string (permission_create_operation.operator_account op) in
  let ref_object_id :=
    ref_object_id_string (permission_create_operation.object_id op) in
  let permission_id :=
    if empty new_object_id then "pending-" +:+ trx_id else new_object_id in
  INSERT_INTO "indexer_permissions"
    ["permission_id"; "subject_account"; "operator_account"; "permission_type";
     "object_id"; "content_key"; "block_num"; "block_time"; "trx_id";
     "operation_type"; "is_removed"]
    [escape_string my permission_id;
     escape_string my subject_account;
     escape_string my operator_account;
     escape_string my (permission_create_operation.permission_type op);
     escape_string my ref_object_id;
     escape_string my (permission_create_operation.content_key op);
     Number block_num;
     to_timestamp block_time;
     escape_string my trx_id;
     Number 44; FALSE]
    "permission_id"
    [("permission_type", EXCLUDED "permission_type");
     ("content_key", EXCLUDED "content_key")].

Definition handle_permission_create (op : permission_create_operation.t)
    (block_num block_time : N) (trx_id new_object_id : string)
    (my : postgres_content_plugin_impl) : postgres_content_plugin_impl :=
  (execute_sql (permission_create_sql my op block_num block_time trx_id new_object_id)
     my).2.

(** The text [sql] of one turn of the loop of [handle_permission_create_many]. *)
Definition permission_create_many_sql (my : postgres_content_plugin_impl)
    (subject_account : string) (perm : permission_create_many_operation.item)
    (permission_id : string) (block_num block_time : N) (trx_id : string)
  : statement :=
  let operator_account :=
    object_id_to_string (permission_create_many_operation.operator_account perm) in
  let ref_object_id :=
    ref_object_id_string (permission_create_many_operation.object_id perm) in
  INSERT_INTO "indexer_permissions"
    ["permission_id"; "subject_account"; "operator_account"; "permission_type";
     "object_id"; "content_key"; "block_num"; "block_time"; "trx_id";
     "operation_type"; "is_removed"]
    [escape_string my permission_id;
     escape_string my subject_account;
     escape_string my operator_account;
     escape_string my (permission_create_many_operation.permission_type perm);
     escape_string my ref_object_id;
     escape_string my (permission_create_many_operation.content_key perm);
     Number block_num;
     to_timestamp block_time;
     escape_string my trx_id;
     Number 64; FALSE]
    "permission_id"
    [("permission_type", EXCLUDED "permission_type");
     ("content_key", EXCLUDED "content_key")].

(** The [permission_id] of one turn of the loop, and the iterator after it:
    the next element of [new_objects] while there is one, then the
    placeholder with the index of the item. *)
Definition next_permission_id (obj_it : list object_id_type) (trx_id : string)
    (i : nat) : string * list object_id_type :=
  match obj_it with
  | id :: obj_it' => (object_id_to_string id, obj_it')
  | [] => ("pending-" +:+ trx_id +:+ "-" +:+ to_string i, [])
  end.

(** The loop of [handle_permission_create_many], from index [i] on: [items]
    are [op.permissions[i..]], [obj_it] is what the iterator has left. *)
Fixpoint permission_create_many_loop (subject_account : string)
    (items : list permission_create_many_operation.item) (i : nat)
    (obj_it : list object_id_type) (block_num block_time : N) (trx_id : string)
    (my : postgres_content_plugin_impl) : postgres_content_plugin_impl :=
  match items with
  | [] => my
  | perm :: items =>
      let '(permission_id, obj_it) := next_permission_id obj_it trx_id i in
      let sql :=
        permission_create_many_sql my subject_account perm permission_id
          block_num block_time trx_id in
      let my := (execute_sql sql my).2 in
      permission_create_many_loop subject_account items (S i) obj_it
        block_num block_time trx_id my
  end.

Definition handle_permission_create_many (op : permission_create_many_operation.t)
    (block_num block_time : N) (trx_id : string)
    (new_objects : list object_id_type)
    (my : postgres_content_plugin_impl) : postgres_content_plugin_impl :=
  let subject_account :=
    object_id_to_string (permission_create_many_operation.subject_account op) in
  permission_create_many_loop subject_account
    (permission_create_many_operation.permissions op) 0 new_objects
    block_num block_time trx_id my.

(** The text [sql] of [handle_permission_remove]. *)
Definition permission_remove_sql (my : postgres_content_plugin_impl)
    (op : permission_remove_operation.t) (block_num block_time : N)
    (trx_id : string) : statement :=
  let permission_id :=
    object_id_to_string (permission_remove_operation.permission_id op) in
  UPDATE "indexer_permissions"
    [("is_removed", TRUE);
     ("block_num", Number block_num);
     ("block_time", to_timestamp block_time);
     ("operation_type", Number 45)]
    "permission_id" (escape_string my permission_id).

Definition handle_permission_remove (op : permission_remove_operation.t)
    (block_num block_time : N) (trx_id : string)
    (my : postgres_content_plugin_impl) : postgres_content_plugin_impl :=
  (execute_sql (permission_remove_sql my op block_num block_time trx_id) my).2.

(** [trx_id] in [on_block]: the id of the transaction the operation came in,
    or the empty string when the index is past the block's transactions. *)
Definition trx_id_of (b : signed_block) (trx_in_block : N) : string :=
  match transactions b !! N.to_nat trx_in_block with
  | Some trx => id_str trx
  | None => ""
  end.

(** [new_objects] in the branch of [on_block] for tag 64. *)
Definition new_objects_of_result (result : operation_result)
  : option (list object_id_type) :=
  if (result_which result =? 3)%N then
    r ← get_generic_operation_result result;
    Some (new_objects r)
  else Some [].

(** One turn of the loop of [on_block]; [None] when a [get] throws. *)
Definition on_block_operation (b : signed_block)
    (o_op : option operation_history_object)
    (my : postgres_content_plugin_impl) : option postgres_content_plugin_impl :=
  match o_op with
  | None => Some my
  | Some o_op =>
      let op := op o_op in
      let result := result o_op in
      let trx_id := trx_id_of b (trx_in_block o_op) in
      created_object_id ← get_object_id_from_result result;
      let op_type := which op in
      if (op_type =? 41)%N then
        o ← get_content_card_create op;
        Some (handle_content_card_create o (block_num b) (timestamp b) trx_id
                created_object_id my)
      else if (op_type =? 42)%N then
        o ← get_content_card_update op;
        Some (handle_content_card_update o (block_num b) (timestamp b) trx_id
                created_object_id my)
      else if (op_type =? 43)%N then
        o ← get_content_card_remove op;
        Some (handle_content_card_remove o (block_num b) (timestamp b) trx_id my)
      else if (op_type =? 44)%N then
        o ← get_permission_create op;
        Some (handle_permission_create o (block_num b) (timestamp b) trx_id
                created_object_id my)
      else if (op_type =? 45)%N then
        o ← get_permission_remove op;
        Some (handle_permission_remove o (block_num b) (timestamp b) trx_id my)
      else if (op_type =? 64)%N then
        new_objects ← new_objects_of_result result;
        o ← get_permission_create_many op;
        Some (handle_permission_create_many o (block_num b) (timestamp b) trx_id
                new_objects my)
      else Some my
  end.

(** The loop of [on_block] over the applied operations. *)
Fixpoint on_block_loop (b : signed_block)
    (hist : list (option operation_history_object))
    (my : postgres_content_plugin_impl) : option postgres_content_plugin_impl :=
  match hist with
  | [] => Some my
  | o_op :: hist =>
      my ← on_block_operation b o_op my;
      on_block_loop b hist my
  end.

Definition on_block (db : database) (b : signed_block)
    (my : postgres_content_plugin_impl) : option postgres_content_plugin_impl :=
  match pg_conn my with
  | None => Some my
  | Some _ =>
      if (block_num b <? _start_block my)%N then Some my
      else on_block_loop b (get_applied_operations db) my
  end.

(** *** What a block sends, as lists of statements

    The definitions below restate the loop of [on_block] as the list of
    statements it hands to [execute_sql]; [on_block_live] proves that this
    is what [on_block] sends. *)

(** The text a literal made by [escape_string] on a live connection stands
    for. *)
Definition quoted_text (input : string) : string :=
  if PQescapable (up_to_zero input) then up_to_zero input else "".

(** The rows after the server has seen [sql]. *)
Definition server_step (rows : table_rows) (sql : statement) : table_rows :=
  if server_accepts sql then
    match analyse sql with
    | Some e => run e rows
    | None => rows
    end
  else rows.

(** The connection after [sqls] were sent, one [PQexec] each. *)
Definition deliver (sqls : list statement) (conn : PGconn) : PGconn :=
  {| rows := foldl server_step (rows conn) sqls; sent := sent conn ++ sqls |}.

(** The effects of the statements the server takes. *)
Definition effects_of (sqls : list statement) : list effect :=
  omap (λ sql, if server_accepts sql then analyse sql else None) sqls.

(** The string [get_object_id_from_result] gives. *)
Definition created_object_id_of (result : operation_result) : string :=
  match result with
  | object_id_result id => object_id_to_string id
  | _ => ""
  end.

(** The [new_objects] the branch for tag 64 passes on. *)
Definition new_objects_of (result : operation_result) : list object_id_type :=
  match result with
  | generic_result r => new_objects r
  | _ => []
  end.

Fixpoint permission_create_many_loop_sql (my : postgres_content_plugin_impl)
    (subject_account : string)
    (items : list permission_create_many_operation.item) (i : nat)
    (obj_it : list object_id_type) (block_num block_time : N) (trx_id : string)
  : list statement :=
  match items with
  | [] => []
  | perm :: items =>
      let '(permission_id, obj_it) := next_permission_id obj_it trx_id i in
      permission_create_many_sql my subject_account perm permission_id
        block_num block_time trx_id
      :: permission_create_many_loop_sql my subject_account items (S i) obj_it
           block_num block_time trx_id
  end.

Definition operation_sql (my : postgres_content_plugin_impl) (b : signed_block)
    (o_op : option operation_history_object) : list statement :=
  match o_op with
  | None => []
  | Some o_op =>
      let trx_id := trx_id_of b (trx_in_block o_op) in
      let created_object_id := created_object_id_of (result o_op) in
      match op o_op with
      | content_card_create o =>
          [content_card_create_sql my o (block_num b) (timestamp b) trx_id
             created_object_id]
      | content_card_update o =>
          [content_card_update_sql my o (block_num b) (timestamp b) trx_id
             created_object_id]
      | content_card_remove o =>
          [content_card_remove_sql my o (block_num b) (timestamp b) trx_id]
      | permission_create o =>
          [permission_create_sql my o (block_num b) (timestamp b) trx_id
             created_object_id]
      | permission_remove o =>
          [permission_remove_sql my o (block_num b) (timestamp b) trx_id]
      | permission_create_many o =>
          permission_create_many_loop_sql my
            (object_id_to_string
               (permission_create_many_operation.subject_account o))
            (permission_create_many_operation.permissions o) 0
            (new_objects_of (result o_op)) (block_num b) (timestamp b) trx_id
      | other_operation _ _ => []
      end
  end.

Definition block_sql (my : postgres_content_plugin_impl) (db : database)
    (b : signed_block) : list statement :=
  if (block_num b <? _start_block my)%N then []
  else concat (operation_sql my b <$> get_applied_operations db).

End postgres_content_plugin.

(** ** room_create_operation *)

(** The result of a call that may throw an [fc::exception]. *)
Inductive fc_result (A : Type) :=
| returns (a : A)
| throws (what : string).
Arguments returns {A} a.
Arguments throws {A} what.

Definition fc_then {A B} (r : fc_result A) (k : A → fc_result B) : fc_result B :=
  match r with
  | returns a => k a
  | throws what => throws what
  end.

Global Instance fc_result_bind : MBind fc_result := λ A B k r, fc_then r k.

(** [FC_ASSERT(condition, message)]. *)
Definition FC_ASSERT (condition : bool) (message : string) : fc_result unit :=
  if condition then returns () else throws message.

Module room_create_operation.
Record t := {
    fee : asset;
    owner : object_id_type;
    name : string;
    room_key : string
  }.

Definition validate (self : t) : fc_result unit :=
    FC_ASSERT (0 <=? amount (fee self))%Z "" ;;
    FC_ASSERT (negb (empty (name self))) "Room name cannot be empty" ;;
    FC_ASSERT (String.length (name self) <=? 256)%nat
      "Room name too long (max 256 characters)" ;;
    FC_ASSERT (negb (empty (room_key self))) "Room key cannot be empty".
End room_create_operation.

(** ** The other room operations *)

Global Instance object_id_type_countable : Countable object_id_type.
Proof.
  refine (inj_countable'
            (λ o, (space o, type_id o, instance o))
            (λ t, {| space := t.1.1; type_id := t.1.2; instance := t.2 |}) _).
  by intros [].
Defined.

Module room_update_operation.
Record t := {
  fee : asset;
  owner : object_id_type;
  room : object_id_type;
  name : string
}.

Definition fee_payer (self : t) : object_id_type := owner self.

Definition validate (self : t) : fc_result unit :=
  FC_ASSERT (0 <=? amount (fee self))%Z "" ;;
  FC_ASSERT (negb (empty (name self))) "Room name cannot be empty" ;;
  FC_ASSERT (String.length (name self) <=? 256)%nat
    "Room name too long (max 256 characters)".

(** [a.insert( owner )] on the [flat_set] that is passed in. *)
Definition get_required_active_authorities (self : t) (a : gset object_id_type)
  : gset object_id_type :=
  {[owner self]} ∪ a.
End room_update_operation.

Module room_add_participant_operation.
Record t := {
  fee : asset;
  owner : object_id_type;
  room : object_id_type;
  participant : object_id_type;
  content_key : string
}.

Definition fee_payer (self : t) : object_id_type := owner self.

Definition validate (self : t) : fc_result unit :=
  FC_ASSERT (0 <=? amount (fee self))%Z "" ;;
  FC_ASSERT (negb (empty (content_key self))) "Content key cannot be empty".

Definition get_required_active_authorities (self : t) (a : gset object_id_type)
  : gset object_id_type :=
  {[owner self]} ∪ a.
End room_add_participant_operation.

Module room_remove_participant_operation.
Record t := {
  fee : asset;
  owner : object_id_type;
  participant_id : object_id_type
}.

Definition fee_payer (self : t) : object_id_type := owner self.

Definition validate (self : t) : fc_result unit :=
  FC_ASSERT (0 <=? amount (fee self))%Z "".

Definition get_required_active_authorities (self : t) (a : gset object_id_type)
  : gset object_id_type :=
  {[owner self]} ∪ a.
End room_remove_participant_operation.

(** [room_rotate_key_operation] is declared outside the files at hand; the
    members that [validate] reads are listed.  [participant_keys] is a map,
    kept as the sequence of its entries. *)
Module room_rotate_key_operation.
Record t := {
  fee : asset;
  new_room_key : string;
  participant_keys : list (object_id_type * string)
}.

Definition validate (self : t) : fc_result unit :=
  FC_ASSERT (0 <=? amount (fee self))%Z "" ;;
  FC_ASSERT (negb (empty (new_room_key self))) "New room key cannot be empty" ;;
  FC_ASSERT (negb (bool_decide (participant_keys self = [])))
    "Participant keys cannot be empty (at least owner required)".
End room_rotate_key_operation.

(** The members of [room_create_operation] that the header defines inline. *)
Definition room_create_fee_payer (self : room_create_operation.t)
  : object_id_type :=
  room_create_operation.owner self.

Definition room_create_get_required_active_authorities
    (self : room_create_operation.t) (a : gset object_id_type)
  : gset object_id_type :=
  {[room_create_operation.owner self]} ∪ a.

(** ** Definitions used to state the facts *)

(** The row has each of the fields. *)
Definition holds (r : row) (fields : list (string * sql_value)) : Prop :=
  Forall (λ cv, r !! cv.1 = Some cv.2) fields.

Definition addressed (e : effect) : string * string :=
  match e with
  | upsert table key _ _ => (table, key)
  | modify table key _ => (table, key)
  end.

(** What an effect does to the row at [at_], given as [None] when the table
    has no such row. *)
Definition row_step (at_ : string * string) (r : option row) (e : effect)
  : option row :=
  if decide (addressed e = at_) then
    match e, r with
    | upsert _ _ proposed _, None => Some proposed
    | upsert _ _ _ set, Some old => Some (assign old set)
    | modify _ _ _, None => None
    | modify _ _ set, Some old => Some (assign old set)
    end
  else r.

(** The SET clauses of the effects that address [at_], in order. *)
Fixpoint clauses_at (at_ : string * string) (es : list effect)
  : list (string * sql_value) :=
  match es with
  | [] => []
  | e :: es =>
      (if decide (addressed e = at_) then
         match e with upsert _ _ _ set => set | modify _ _ set => set end
       else []) ++ clauses_at at_ es
  end.

(** The effects that propose a row write, in their SET clauses, what the
    proposed row already holds, as [column = EXCLUDED.column] does on the
    proposed row itself. *)
Definition upserts_restate (es : list effect) : Prop :=
  Forall (λ e, match e with
               | upsert _ _ proposed set => holds proposed set
               | modify _ _ _ => True
               end) es.

(** No effect finds the row at [at_] missing and leaves it missing while a
    later effect creates it: the effects that address [at_] start with the
    creation, or none of them creates. *)
Fixpoint created_first (at_ : string * string) (es : list effect) : bool :=
  match es with
  | [] => true
  | e :: es =>
      if decide (addressed e = at_) then
        match e with
        | upsert _ _ _ _ => true
        | modify _ _ _ =>
            forallb (λ e', match e' with
                           | upsert table key _ _ =>
                               negb (bool_decide ((table, key) = at_))
                           | modify _ _ _ => true
                           end) es
        end
      else created_first at_ es
  end.

(** The widths of [create_tables]: VARCHAR(n) for the ids, the accounts, the
    hash, the types and the transaction id; the other text columns are TEXT. *)
Definition varchar_width (table column : string) : option nat :=
  if decide (table = "indexer_content_cards") then
    if decide (column = "content_card_id") then Some 32%nat
    else if decide (column = "subject_account") then Some 32%nat
    else if decide (column = "hash") then Some 256%nat
    else if decide (column = "type") then Some 64%nat
    else if decide (column = "trx_id") then Some 64%nat
    else None
  else if decide (table = "indexer_permissions") then
    if decide (column = "permission_id") then Some 32%nat
    else if decide (column = "subject_account") then Some 32%nat
    else if decide (column = "operator_account") then Some 32%nat
    else if decide (column = "permission_type") then Some 64%nat
    else if decide (column = "object_id") then Some 32%nat
    else if decide (column = "trx_id") then Some 64%nat
    else None
  else None.

(** The texts of the row are within the widths of their columns, counted in
    bytes.  A text of no more bytes than the width has no more characters
    than the width in any encoding, and the server stores it as it is
    written; past the width the server refuses the text or, where the excess
    is all spaces, stores it cut.  The facts that give the texts of a stored
    row are stated for rows within the widths. *)
Definition within_widths (table : string) (r : row) : bool :=
  forallb (λ cv, match cv.2, varchar_width table cv.1 with
                 | SqlText s, Some width => bool_decide (String.length s ≤ width)%nat
                 | _, _ => true
                 end)
    (map_to_list r).

(** The statement is an INSERT under the id [at_] of its table. *)
Definition inserts_under (at_ : string * string) (sql : statement) : bool :=
  match analyse sql with
  | Some (upsert table key _ _) => bool_decide ((table, key) = at_)
  | _ => false
  end.

(** No statement of the list inserts under an id that an earlier statement
    of the list removes. *)
Fixpoint no_insert_after_remove (sqls : list statement) : bool :=
  match sqls with
  | [] => true
  | sql :: sqls =>
      match analyse sql with
      | Some (modify table key _) =>
          forallb (λ sql', negb (inserts_under (table, key) sql')) sqls
      | _ => true
      end && no_insert_after_remove sqls
  end.

(** The id a remove names. *)
Definition removed_id (o : operation) : option object_id_type :=
  match o with
  | content_card_remove o => Some (content_card_remove_operation.content_id o)
  | permission_remove o => Some (permission_remove_operation.permission_id o)
  | _ => None
  end.

(** The ids the result of an applied operation gives to the rows the plugin
    inserts for it. *)
Definition inserted_ids (o : operation_history_object) : list object_id_type :=
  match op o with
  | content_card_create _ | content_card_update _ | permission_create _ =>
      match result o with
      | object_id_result id => [id]
      | _ => []
      end
  | permission_create_many _ =>
      match result o with
      | generic_result r => new_objects r
      | _ => []
      end
  | _ => []
  end.

(** The applied operations of a finalized block come in the order of the
    chain: an object has its id from the operation that creates it, so no
    operation removes an id that the result of a later operation of the
    block gives to a new or rewritten object. *)
Fixpoint chain_order (hist : list (option operation_history_object)) : bool :=
  match hist with
  | [] => true
  | o_op :: hist =>
      match o_op ≫= λ o, removed_id (op o) with
      | Some id =>
          forallb (λ o_op',
                     match o_op' with
                     | Some o' => bool_decide (id ∉ inserted_ids o')
                     | None => true
                     end) hist
      | None => true
      end && chain_order hist
  end.

(** Decimal digits, of which [std::string(object_id_type)] is made. *)
Definition digit (c : ascii) : bool :=
  bool_decide (c ∈ ["0"; "1"; "2"; "3"; "4"; "5"; "6"; "7"; "8"; "9"]%char).

Fixpoint digits (s : string) : bool :=
  match s with
  | EmptyString => true
  | String c s => digit c && digits s
  end.

(** The row an INSERT into [indexer_content_cards] proposes. *)
Definition content_card_row (id subject hash url type description content_key
    storage_data : string) (block_num block_time : N) (trx : string) (kind : N)
  : row :=
  list_to_map
    [("content_card_id", SqlText id); ("subject_account", SqlText subject);
     ("hash", SqlText hash); ("url", SqlText url); ("type", SqlText type);
     ("description", SqlText description); ("content_key", SqlText content_key);
     ("storage_data", SqlText storage_data); ("block_num", SqlInt block_num);
     ("block_time", SqlTimestamp block_time); ("trx_id", SqlText trx);
     ("operation_type", SqlInt kind); ("is_removed", SqlBool false)].

(** The row an INSERT into [indexer_permissions] proposes. *)
Definition permission_row (id subject operator permission_type object_id
    content_key : string) (block_num block_time : N) (trx : string) (kind : N)
  : row :=
  list_to_map
    [("permission_id", SqlText id); ("subject_account", SqlText subject);
     ("operator_account", SqlText operator);
     ("permission_type", SqlText permission_type);
     ("object_id", SqlText object_id); ("content_key", SqlText content_key);
     ("block_num", SqlInt block_num); ("block_time", SqlTimestamp block_time);
     ("trx_id", SqlText trx); ("operation_type", SqlInt kind);
     ("is_removed", SqlBool false)].

(** ON CONFLICT of [handle_content_card_create], with its values. *)
Definition content_fields (hash url type description content_key storage_data
    : string) : list (string * sql_value) :=
  [("hash", SqlText hash); ("url", SqlText url); ("type", SqlText type);
   ("description", SqlText description); ("content_key", SqlText content_key);
   ("storage_data", SqlText storage_data)].

(** SET of the two UPDATE statements, with its values. *)
Definition removal_fields (block_num block_time kind : N)
  : list (string * sql_value) :=
  [("is_removed", SqlBool true); ("block_num", SqlInt block_num);
   ("block_time", SqlTimestamp block_time); ("operation_type", SqlInt kind)].

(** The plugin with the connection replaced. *)
Definition with_conn (my : postgres_content_plugin_impl) (conn : PGconn)
  : postgres_content_plugin_impl :=
  {| pg_conn := Some conn; _start_block := _start_block my |}.

(** The id a create gives its row: the id that came with the result, or
    the placeholder when none came. *)
Definition pending_or (trx_id object_id : string) : string :=
  if empty object_id then "pending-" +:+ trx_id else object_id.

(** The ON CONFLICT clauses of the statement, if it is an INSERT, write
    what the row it proposes already holds. *)
Definition restating (sql : statement) : Prop :=
  ∀ table key proposed set,
    analyse sql = Some (upsert table key proposed set) → holds proposed set.

(** The row of [table] with [id] in its UNIQUE column, as the plugin's
    connection holds it. *)
Definition row_of (my : postgres_content_plugin_impl) (table id : string)
  : option row :=
  conn ← pg_conn my; rows conn !! (table, id).

(** The resolver in the words of the spec: the single identifier of an
    object-id result, the set of a generic result in its own order, nothing
    for any other result. *)
Definition resolved_identifiers (result : operation_result)
  : list object_id_type :=
  match result with
  | object_id_result id => [id]
  | generic_result r => new_objects r
  | _ => []
  end.

(** The identifiers a string of [get_object_id_from_result] stands for: the
    handlers take the empty string for no identifier. *)
Definition identifiers_in (created_object_id : string) : list string :=
  if empty created_object_id then [] else [created_object_id].

(** The [permission_id] of item [i] of a bulk create. *)
Definition bulk_permission_id (new_objects : list object_id_type)
    (trx_id : string) (i : nat) : string :=
  match new_objects !! i with
  | Some id => object_id_to_string id
  | None => "pending-" +:+ trx_id +:+ "-" +:+ to_string i
  end.

(** The first of the VALUES of an INSERT: what the plugin writes to the
    UNIQUE column. *)
Definition inserted_id (sql : statement) : option sql_expr :=
  match sql with
  | INSERT_INTO _ _ (id :: _) _ _ => Some id
  | _ => None
  end.

(** The SET clauses of an effect. *)
Definition effect_set (e : effect) : list (string * sql_value) :=
  match e with
  | upsert _ _ _ set => set
  | modify _ _ set => set
  end.

(** The effects of the five statements the plugin writes, whatever their
    values are: the INSERT of [handle_content_card_create], the INSERT of
    [handle_content_card_update], the UPDATE of [handle_content_card_remove],
    the INSERT of [handle_permission_create] and of
    [handle_permission_create_many], and the UPDATE of
    [handle_permission_remove]. *)
Inductive plugin_effect : effect → Prop :=
| card_created id subject hash url type description content_key storage_data
    bn bt trx :
    plugin_effect
      (upsert "indexer_content_cards" id
         (content_card_row id subject hash url type description content_key
            storage_data bn bt trx 41)
         (content_fields hash url type description content_key storage_data))
| card_updated id subject hash url type description content_key storage_data
    bn bt trx :
    plugin_effect
      (upsert "indexer_content_cards" id
         (content_card_row id subject hash url type description content_key
            storage_data bn bt trx 42)
         (content_fields hash url type description content_key storage_data
          ++ [("block_num", SqlInt bn); ("block_time", SqlTimestamp bt);
              ("operation_type", SqlInt 42)]))
| card_removed id bn bt :
    plugin_effect (modify "indexer_content_cards" id (removal_fields bn bt 43))
| permission_created id subject operator permission_type object_id content_key
    bn bt trx kind :
    plugin_effect
      (upsert "indexer_permissions" id
         (permission_row id subject operator permission_type object_id
            content_key bn bt trx kind)
         [("permission_type", SqlText permission_type);
          ("content_key", SqlText content_key)])
| permission_removed id bn bt :
    plugin_effect (modify "indexer_permissions" id (removal_fields bn bt 45)).

(** The columns that some SET clause of the plugin names, by table. *)
Definition written_columns (table : string) : list string :=
  if decide (table = "indexer_content_cards") then
    ["hash"; "url"; "type"; "description"; "content_key"; "storage_data";
     "block_num"; "block_time"; "operation_type"; "is_removed"]
  else
    ["permission_type"; "content_key"; "block_num"; "block_time";
     "operation_type"; "is_removed"].

(** Every statement of the list that passes analysis has one of the
    plugin's five effects. *)
Definition plugin_statement (sql : statement) : Prop :=
  ∀ e, analyse sql = Some e → plugin_effect e.

(** ** Concrete inputs *)

(** A client encoding in which every text is valid and a server that takes
    every statement that passes analysis.  The texts below are short ASCII:
    they fit the columns of [create_tables]. *)
Definition permissive : PostgreSQL :=
  {| PQescapable := λ _, true; server_accepts := λ _, true |}.

Definition ex_account : object_id_type :=
  {| space := 1; type_id := 2; instance := 5 |}.
Definition ex_operator : object_id_type :=
  {| space := 1; type_id := 2; instance := 6 |}.
Definition ex_card : object_id_type :=
  {| space := 1; type_id := 7; instance := 3 |}.
Definition ex_permission : object_id_type :=
  {| space := 1; type_id := 8; instance := 4 |}.

Definition ex_create : content_card_create_operation.t :=
  {| content_card_create_operation.subject_account := ex_account;
     content_card_create_operation.hash := "abcd";
     content_card_create_operation.url := "ipfs://abcd";
     content_card_create_operation.type := "text";
     content_card_create_operation.description := "first";
     content_card_create_operation.content_key := "k1";
     content_card_create_operation.storage_data := "{}" |}.

Definition ex_create' : content_card_create_operation.t :=
  {| content_card_create_operation.subject_account := ex_operator;
     content_card_create_operation.hash := "ef01";
     content_card_create_operation.url := "ipfs://ef01";
     content_card_create_operation.type := "image";
     content_card_create_operation.description := "second";
     content_card_create_operation.content_key := "k2";
     content_card_create_operation.storage_data := "{}" |}.

Definition ex_update : content_card_update_operation.t :=
  {| content_card_update_operation.subject_account := ex_account;
     content_card_update_operation.hash := "abcd";
     content_card_update_operation.url := "ipfs://moved";
     content_card_update_operation.type := "text";
     content_card_update_operation.description := "edited";
     content_card_update_operation.content_key := "k3";
     content_card_update_operation.storage_data := "{}" |}.

Definition ex_remove : content_card_remove_operation.t :=
  {| content_card_remove_operation.content_id := ex_card |}.

Definition ex_permission_create : permission_create_operation.t :=
  {| permission_create_operation.subject_account := ex_account;
     permission_create_operation.operator_account := ex_operator;
     permission_create_operation.permission_type := "read";
     permission_create_operation.object_id := Some ex_card;
     permission_create_operation.content_key := "pk2" |}.

Definition ex_permission_remove : permission_remove_operation.t :=
  {| permission_remove_operation.permission_id := ex_permission |}.

Definition ex_item (key : string) : permission_create_many_operation.item :=
  {| permission_create_many_operation.operator_account := ex_operator;
     permission_create_many_operation.permission_type := "read";
     permission_create_many_operation.object_id := Some ex_card;
     permission_create_many_operation.content_key := key |}.

Definition ex_create_many : permission_create_many_operation.t :=
  {| permission_create_many_operation.subject_account := ex_account;
     permission_create_many_operation.permissions :=
       [ex_item "a"; ex_item "b"; ex_item "c"] |}.

(** A live connection to empty tables. *)
Definition ex_plugin : postgres_content_plugin_impl :=
  {| pg_conn := Some {| rows := ∅; sent := [] |}; _start_block := 0 |}.

(** The same with the card [1.7.3] as a create of transaction [aa11] in
    block 100 left it. *)
Definition ex_card_row : row :=
  content_card_row "1.7.3" "1.2.5" "abcd" "ipfs://abcd" "text" "first" "k1" "{}"
    100 1700000000 "aa11" 41.
Definition ex_plugin_with_card : postgres_content_plugin_impl :=
  {| pg_conn :=
       Some {| rows := {[ ("indexer_content_cards", "1.7.3") := ex_card_row ]};
               sent := [] |};
     _start_block := 0 |}.

(** The same with the permission [1.8.4]. *)
Definition ex_permission_row : row :=
  permission_row "1.8.4" "1.2.5" "1.2.6" "write" "1.7.3" "pk1"
    100 1700000000 "aa11" 44.
Definition ex_plugin_with_permission : postgres_content_plugin_impl :=
  {| pg_conn :=
       Some {| rows := {[ ("indexer_permissions", "1.8.4") := ex_permission_row ]};
               sent := [] |};
     _start_block := 0 |}.

Definition ex_block (num : N) : signed_block :=
  {| block_num := num; timestamp := 1700000000 + 3 * num;
     transactions := [{| id_str := "bb22" |}] |}.

Definition applied (op : operation) (result : operation_result)
  : option operation_history_object :=
  Some {| op := op; result := result; trx_in_block := 0 |}.

(** Block 101 creates the card [1.7.3] and then removes it. *)
Definition ex_create_then_remove : database :=
  {| get_applied_operations :=
       [applied (content_card_create ex_create) (object_id_result ex_card);
        applied (content_card_remove ex_remove) void_result] |}.

(** The applied operations name the removal of [1.7.3] before its creation. *)
Definition ex_remove_then_create : database :=
  {| get_applied_operations :=
       [applied (content_card_remove ex_remove) void_result;
        applied (content_card_create ex_create) (object_id_result ex_card)] |}.


(** An operation of another kind (tag 0) between two creates. *)
Definition ex_with_other_operation : database :=
  {| get_applied_operations :=
       [applied (content_card_create ex_create) (object_id_result ex_card);
        applied (other_operation 0 eq_refl) void_result;
        applied (permission_create ex_permission_create)
          (object_id_result ex_permission)] |}.

(** The content-card update of transaction [bb22] in block 101, on the card
    that transaction [aa11] created in block 100. *)
Definition ex_update_of_card : database :=
  {| get_applied_operations :=
       [applied (content_card_update ex_update) (object_id_result ex_card)] |}.

(** The plugin told to start at block 200. *)
Definition ex_plugin_from_200 : postgres_content_plugin_impl :=
  {| pg_conn := Some {| rows := ∅; sent := [] |}; _start_block := 200 |}.

(** A server that refuses every statement. *)
Definition refusing : PostgreSQL :=
  {| PQescapable := λ _, true; server_accepts := λ _, false |}.

(** The plugin before [connect_to_postgres]. *)
Definition ex_plugin_off : postgres_content_plugin_impl :=
  {| pg_conn := None; _start_block := 0 |}.

(** The card [1.7.3], removed in block 100. *)
Definition ex_removed_card_row : row :=
  assign ex_card_row (removal_fields 100 1700000300 43).
Definition ex_plugin_with_removed_card : postgres_content_plugin_impl :=
  {| pg_conn :=
       Some {| rows :=
                 {[ ("indexer_content_cards", "1.7.3") := ex_removed_card_row ]};
               sent := [] |};
     _start_block := 0 |}.

(** A second create for the id [1.7.3]. *)
Definition ex_create_again : database :=
  {| get_applied_operations :=
       [applied (content_card_create ex_create') (object_id_result ex_card)] |}.

Definition ex_room_create : room_create_operation.t :=
  {| room_create_operation.fee := {| amount := 20; asset_id := ex_account |};
     room_create_operation.owner := ex_account;
     room_create_operation.name := "lobby";
     room_create_operation.room_key := "rk" |}.

Definition ex_room_update : room_update_operation.t :=
  {| room_update_operation.fee := {| amount := 20; asset_id := ex_account |};
     room_update_operation.owner := ex_operator;
     room_update_operation.room := ex_card;
     room_update_operation.name := "lobby" |}.

(** * Facts *)

(** ** SET clauses *)

Lemma assign_cons (old : row) column v set :
  assign old ((column, v) :: set) = assign (<[column := v]> old) set.
Proof. reflexivity. Qed.

Lemma assign_app (old : row) set1 set2 :
  assign old (set1 ++ set2) = assign (assign old set1) set2.
Proof. unfold assign. apply foldl_app. Qed.

(** A column no clause names keeps its value. *)
Lemma assign_lookup_other (old : row) set (column : string) :
  column ∉ set.*1 → assign old set !! column = old !! column.
Proof.
  revert old. induction set as [|[c v] set IH]; intros old Hnot; [done|].
  rewrite assign_cons, IH.
  - apply lookup_insert_ne. intros ->. apply Hnot. simpl. left.
  - intros Hin. apply Hnot. simpl. by right.
Qed.

(** A column some clause names gets a value that does not depend on the old
    row. *)
Lemma assign_lookup_named (old old' : row) set (column : string) :
  column ∈ set.*1 → assign old set !! column = assign old' set !! column.
Proof.
  revert old old'. induction set as [|[c v] set IH]; intros old old' Hin.
  - by apply elem_of_nil in Hin.
  - rewrite !assign_cons.
    destruct (decide (column ∈ set.*1)) as [Hlater|Hlater]; [by apply IH|].
    rewrite !assign_lookup_other by done.
    simpl in Hin. apply elem_of_cons in Hin as [->|Hin]; [|done].
    by rewrite !lookup_insert_eq.
Qed.

(** Running the same clauses a second time changes nothing. *)
Lemma assign_twice (old : row) set :
  assign (assign old set) set = assign old set.
Proof.
  apply map_eq. intros column.
  destruct (decide (column ∈ set.*1)).
  - by apply assign_lookup_named.
  - by rewrite assign_lookup_other.
Qed.

Lemma holds_assign (proposed : row) set :
  holds proposed set → assign proposed set = proposed.
Proof.
  induction 1 as [|[c v] set Hc _ IH]; [done|].
  rewrite assign_cons. simpl in Hc. by rewrite insert_id.
Qed.

(** The clauses [set1] restate the row they come from; they are run between
    two runs of [set2]: the second run of [set2] restores what the first
    gave. *)
Lemma assign_restated (proposed : row) set1 set2 :
  holds proposed set1 →
  assign (assign (assign proposed set2) set1) set2 = assign proposed set2.
Proof.
  intros Hre. apply map_eq. intros column.
  destruct (decide (column ∈ set2.*1)).
  - by apply assign_lookup_named.
  - rewrite !(assign_lookup_other _ set2) by done.
    destruct (decide (column ∈ set1.*1)).
    + rewrite (assign_lookup_named _ proposed) by done.
      by rewrite holds_assign.
    + by rewrite !assign_lookup_other.
Qed.

(** ** One row under a sequence of effects *)

Lemma run_lookup (e : effect) (rows : table_rows) (at_ : string * string) :
  run e rows !! at_ = row_step at_ (rows !! at_) e.
Proof.
  unfold row_step.
  destruct e as [table key proposed set|table key set]; simpl;
    (destruct (decide ((table, key) = at_)) as [<-|Hne];
     [destruct (rows !! (table, key)) eqn:Hrow; by simplify_map_eq
     |destruct (rows !! (table, key)); by simplify_map_eq]).
Qed.

Lemma foldl_run_lookup (es : list effect) (rows : table_rows) at_ :
  foldl (λ rows e, run e rows) rows es !! at_
  = foldl (row_step at_) (rows !! at_) es.
Proof.
  revert rows. induction es as [|e es IH]; intros rows; [done|].
  simpl. by rewrite IH, run_lookup.
Qed.

(** On a row that exists, every effect is its SET clauses. *)
Lemma foldl_row_step_Some at_ (es : list effect) (old : row) :
  foldl (row_step at_) (Some old) es = Some (assign old (clauses_at at_ es)).
Proof.
  revert old. induction es as [|e es IH]; intros old; [done|].
  simpl. unfold row_step at 2.
  destruct (decide (addressed e = at_)); [|by rewrite IH].
  rewrite assign_app. by destruct e; rewrite IH.
Qed.

Lemma foldl_row_step_never_created at_ (es : list effect) :
  forallb (λ e', match e' with
                 | upsert table key _ _ => negb (bool_decide ((table, key) = at_))
                 | modify _ _ _ => true
                 end) es = true →
  foldl (row_step at_) None es = None.
Proof.
  induction es as [|e es IH]; [done|].
  simpl. intros [He Hes]%andb_prop. unfold row_step at 2.
  destruct e as [table key proposed set|table key set]; simpl in *.
  - apply negb_true_iff, bool_decide_eq_false in He.
    rewrite decide_False by done. by apply IH.
  - destruct (decide _); by apply IH.
Qed.

Lemma row_step_other at_ (r : option row) (e : effect) :
  addressed e ≠ at_ → row_step at_ r e = r.
Proof. intros. unfold row_step. by rewrite decide_False. Qed.

Lemma row_step_upsert table key proposed set (r : option row) :
  row_step (table, key) r (upsert table key proposed set)
  = Some (from_option (λ old, assign old set) proposed r).
Proof. unfold row_step. rewrite decide_True by done. by destruct r. Qed.

Lemma row_step_modify table key set (r : option row) :
  row_step (table, key) r (modify table key set) = (λ old, assign old set) <$> r.
Proof. unfold row_step. rewrite decide_True by done. by destruct r. Qed.

(** Running a sequence of effects twice leaves every row that exists before,
    and every row the sequence creates before it touches it otherwise, as
    running the sequence once leaves it. *)
Lemma foldl_row_step_twice at_ (es : list effect) (r : option row) :
  upserts_restate es →
  is_Some r ∨ created_first at_ es = true →
  foldl (row_step at_) (foldl (row_step at_) r es) es
  = foldl (row_step at_) r es.
Proof.
  intros Hre Hfirst. destruct r as [old|].
  { rewrite !foldl_row_step_Some. f_equal. apply assign_twice. }
  destruct Hfirst as [[? [=]]|Hfirst].
  induction es as [|e es IH]; [done|].
  apply Forall_cons in Hre as [He Hre]. simpl in Hfirst.
  destruct (decide (addressed e = at_)) as [<-|Hat].
  - destruct e as [table key proposed set|table key set]; cbn [foldl addressed] in *.
    + rewrite row_step_upsert. cbn [from_option].
      rewrite !foldl_row_step_Some. cbn [foldl].
      rewrite row_step_upsert. cbn [from_option].
      rewrite foldl_row_step_Some. f_equal. by apply assign_restated.
    + rewrite !row_step_modify. simpl.
      rewrite !(foldl_row_step_never_created _ _ Hfirst). simpl.
      by apply foldl_row_step_never_created.
  - cbn [foldl]. rewrite (row_step_other _ None) by done.
    cbn [foldl]. rewrite row_step_other by done. by apply IH.
Qed.

(** ** The statements of the plugin, analysed *)

Lemma analyse_content_card_create (id subject hash url type description
    content_key storage_data trx : string) (bn bt : N) :
  analyse (INSERT_INTO "indexer_content_cards"
    ["content_card_id"; "subject_account"; "hash"; "url"; "type"; "description";
     "content_key"; "storage_data"; "block_num"; "block_time"; "trx_id";
     "operation_type"; "is_removed"]
    [Literal id; Literal subject; Literal hash; Literal url; Literal type;
     Literal description; Literal content_key; Literal storage_data;
     Number bn; to_timestamp bt; Literal trx; Number 41; FALSE]
    "content_card_id"
    [("hash", EXCLUDED "hash"); ("url", EXCLUDED "url"); ("type", EXCLUDED "type");
     ("description", EXCLUDED "description");
     ("content_key", EXCLUDED "content_key");
     ("storage_data", EXCLUDED "storage_data")])
  = Some (upsert "indexer_content_cards" id
            (content_card_row id subject hash url type description content_key
               storage_data bn bt trx 41)
            (content_fields hash url type description content_key storage_data)).
Proof. vm_compute. reflexivity. Qed.

Lemma analyse_content_card_update (id subject hash url type description
    content_key storage_data trx : string) (bn bt : N) :
  analyse (INSERT_INTO "indexer_content_cards"
    ["content_card_id"; "subject_account"; "hash"; "url"; "type"; "description";
     "content_key"; "storage_data"; "block_num"; "block_time"; "trx_id";
     "operation_type"; "is_removed"]
    [Literal id; Literal subject; Literal hash; Literal url; Literal type;
     Literal description; Literal content_key; Literal storage_data;
     Number bn; to_timestamp bt; Literal trx; Number 42; FALSE]
    "content_card_id"
    [("hash", EXCLUDED "hash"); ("url", EXCLUDED "url"); ("type", EXCLUDED "type");
     ("description", EXCLUDED "description");
     ("content_key", EXCLUDED "content_key");
     ("storage_data", EXCLUDED "storage_data");
     ("block_num", EXCLUDED "block_num");
     ("block_time", EXCLUDED "block_time");
     ("operation_type", Number 42)])
  = Some (upsert "indexer_content_cards" id
            (content_card_row id subject hash url type description content_key
               storage_data bn bt trx 42)
            (content_fields hash url type description content_key storage_data
             ++ [("block_num", SqlInt bn); ("block_time", SqlTimestamp bt);
                 ("operation_type", SqlInt 42)])).
Proof. vm_compute. reflexivity. Qed.

Lemma analyse_content_card_remove (id : string) (bn bt : N) :
  analyse (UPDATE "indexer_content_cards"
    [("is_removed", TRUE); ("block_num", Number bn);
     ("block_time", to_timestamp bt); ("operation_type", Number 43)]
    "content_card_id" (Literal id))
  = Some (modify "indexer_content_cards" id (removal_fields bn bt 43)).
Proof. reflexivity. Qed.

Lemma analyse_permission_insert (id subject operator permission_type object_id
    content_key trx : string) (bn bt kind : N) :
  analyse (INSERT_INTO "indexer_permissions"
    ["permission_id"; "subject_account"; "operator_account"; "permission_type";
     "object_id"; "content_key"; "block_num"; "block_time"; "trx_id";
     "operation_type"; "is_removed"]
    [Literal id; Literal subject; Literal operator; Literal permission_type;
     Literal object_id; Literal content_key;
     Number bn; to_timestamp bt; Literal trx; Number kind; FALSE]
    "permission_id"
    [("permission_type", EXCLUDED "permission_type");
     ("content_key", EXCLUDED "content_key")])
  = Some (upsert "indexer_permissions" id
            (permission_row id subject operator permission_type object_id
               content_key bn bt trx kind)
            [("permission_type", SqlText permission_type);
             ("content_key", SqlText content_key)]).
Proof. vm_compute. reflexivity. Qed.

Lemma analyse_permission_remove (id : string) (bn bt : N) :
  analyse (UPDATE "indexer_permissions"
    [("is_removed", TRUE); ("block_num", Number bn);
     ("block_time", to_timestamp bt); ("operation_type", Number 45)]
    "permission_id" (Literal id))
  = Some (modify "indexer_permissions" id (removal_fields bn bt 45)).
Proof. reflexivity. Qed.

Lemma content_card_row_restated_41 id subject hash url type description
    content_key storage_data bn bt trx :
  holds
    (content_card_row id subject hash url type description content_key
       storage_data bn bt trx 41)
    (content_fields hash url type description content_key storage_data).
Proof. repeat constructor. Qed.

Lemma content_card_row_restated_42 id subject hash url type description
    content_key storage_data bn bt trx :
  holds
    (content_card_row id subject hash url type description content_key
       storage_data bn bt trx 42)
    (content_fields hash url type description content_key storage_data
     ++ [("block_num", SqlInt bn); ("block_time", SqlTimestamp bt);
         ("operation_type", SqlInt 42)]).
Proof. repeat constructor. Qed.

Lemma permission_row_restated id subject operator permission_type object_id
    content_key bn bt trx kind :
  holds
    (permission_row id subject operator permission_type object_id content_key
       bn bt trx kind)
    [("permission_type", SqlText permission_type);
     ("content_key", SqlText content_key)].
Proof. repeat constructor. Qed.

(** ** The plugin on a live connection *)

Section plugin_facts.

Context `{pg : PostgreSQL}.

Lemma escape_string_live my conn input :
  pg_conn my = Some conn → escape_string my input = Literal (quoted_text input).
Proof.
  intros Hlive. unfold escape_string, PQescapeLiteral, quoted_text.
  rewrite Hlive. cbv zeta. by destruct (PQescapable (up_to_zero input)).
Qed.

Lemma PQexec_deliver conn sql : (PQexec conn sql).2 = deliver [sql] conn.
Proof.
  unfold PQexec, deliver, server_step. simpl.
  destruct (server_accepts sql); [|done]. by destruct (analyse sql).
Qed.

Lemma execute_sql_live my conn sql :
  pg_conn my = Some conn →
  (execute_sql sql my).2 = with_conn my (deliver [sql] conn).
Proof.
  intros Hlive. unfold execute_sql. rewrite Hlive.
  rewrite <- PQexec_deliver. by destruct (PQexec conn sql).
Qed.

Lemma deliver_nil conn : deliver [] conn = conn.
Proof. destruct conn. unfold deliver. simpl. by rewrite app_nil_r. Qed.

Lemma deliver_app sqls1 sqls2 conn :
  deliver (sqls1 ++ sqls2) conn = deliver sqls2 (deliver sqls1 conn).
Proof.
  unfold deliver. simpl. by rewrite foldl_app, app_assoc.
Qed.

Lemma deliver_cons sql sqls conn :
  deliver (sql :: sqls) conn = deliver sqls (deliver [sql] conn).
Proof. apply (deliver_app [sql]). Qed.

Lemma with_conn_same my conn : pg_conn my = Some conn → with_conn my conn = my.
Proof. destruct my. simpl. by intros ->. Qed.

(** The text of a statement depends on the plugin only through the
    connection being live. *)
Ltac by_live H1 H2 :=
  rewrite !(escape_string_live _ _ _ H1), ?(escape_string_live _ _ _ H2);
  reflexivity.

Lemma permission_create_many_sql_live my my' conn conn' subject perm id bn bt trx :
  pg_conn my = Some conn → pg_conn my' = Some conn' →
  permission_create_many_sql my subject perm id bn bt trx
  = permission_create_many_sql my' subject perm id bn bt trx.
Proof.
  intros H1 H2. unfold permission_create_many_sql. by_live H1 H2.
Qed.

Lemma permission_create_many_loop_sql_live my my' conn conn' subject items i
    obj_it bn bt trx :
  pg_conn my = Some conn → pg_conn my' = Some conn' →
  permission_create_many_loop_sql my subject items i obj_it bn bt trx
  = permission_create_many_loop_sql my' subject items i obj_it bn bt trx.
Proof.
  intros H1 H2. revert i obj_it.
  induction items as [|perm items IH]; intros i obj_it; [done|].
  simpl. destruct (next_permission_id obj_it trx i) as [id obj_it'].
  f_equal; [|apply IH]. by eapply permission_create_many_sql_live.
Qed.

Lemma operation_sql_live my my' conn conn' b o_op :
  pg_conn my = Some conn → pg_conn my' = Some conn' →
  operation_sql my b o_op = operation_sql my' b o_op.
Proof.
  intros H1 H2. destruct o_op as [[op result trx]|]; [|done].
  unfold operation_sql. simpl.
  destruct op; try done.
  - unfold content_card_create_sql. f_equal. by_live H1 H2.
  - unfold content_card_update_sql. f_equal. by_live H1 H2.
  - unfold content_card_remove_sql. f_equal. by_live H1 H2.
  - unfold permission_create_sql. f_equal. by_live H1 H2.
  - unfold permission_remove_sql. f_equal. by_live H1 H2.
  - by eapply permission_create_many_loop_sql_live.
Qed.

Lemma block_sql_live my my' conn conn' db b :
  pg_conn my = Some conn → pg_conn my' = Some conn' →
  _start_block my = _start_block my' →
  block_sql my db b = block_sql my' db b.
Proof.
  intros H1 H2 Hstart. unfold block_sql. rewrite Hstart.
  destruct (_ <? _)%N; [done|]. f_equal.
  apply list_fmap_ext. intros _ o_op _. by eapply operation_sql_live.
Qed.

(** The loop of [handle_permission_create_many] sends the statements of
    [permission_create_many_loop_sql], in order. *)
Lemma permission_create_many_loop_live subject items i obj_it bn bt trx my conn :
  pg_conn my = Some conn →
  permission_create_many_loop subject items i obj_it bn bt trx my
  = with_conn my
      (deliver (permission_create_many_loop_sql my subject items i obj_it bn bt trx)
         conn).
Proof.
  revert i obj_it my conn.
  induction items as [|perm items IH]; intros i obj_it my conn Hlive.
  - simpl. by rewrite deliver_nil, with_conn_same.
  - simpl. destruct (next_permission_id obj_it trx i) as [id obj_it'].
    rewrite (execute_sql_live _ _ _ Hlive).
    erewrite IH by reflexivity.
    rewrite (permission_create_many_loop_sql_live _ my _ conn) by done.
    rewrite (deliver_cons _ (permission_create_many_loop_sql _ _ _ _ _ _ _ _)).
    reflexivity.
Qed.

Lemma projected_tag_false tag :
  projected_tag tag = false →
  (tag =? 41)%N = false ∧ (tag =? 42)%N = false ∧ (tag =? 43)%N = false ∧
  (tag =? 44)%N = false ∧ (tag =? 45)%N = false ∧ (tag =? 64)%N = false.
Proof.
  unfold projected_tag. intros Hno.
  repeat (apply orb_false_elim in Hno as [Hno ?]). by repeat split.
Qed.

Lemma get_object_id_from_result_total result :
  get_object_id_from_result result = Some (created_object_id_of result).
Proof.
  destruct result as [| | | |tag later]; try done.
  unfold get_object_id_from_result. simpl.
  apply N.ltb_lt in later.
  by rewrite (proj2 (N.eqb_neq tag 1)) by lia.
Qed.

Lemma new_objects_of_result_total result :
  new_objects_of_result result = Some (new_objects_of result).
Proof.
  destruct result as [| | | |tag later]; try done.
  unfold new_objects_of_result. simpl.
  apply N.ltb_lt in later.
  by rewrite (proj2 (N.eqb_neq tag 3)) by lia.
Qed.

(** One turn of the loop of [on_block] never throws, and sends the
    statements of [operation_sql]. *)
Lemma on_block_operation_live b o_op my conn :
  pg_conn my = Some conn →
  on_block_operation b o_op my
  = Some (with_conn my (deliver (operation_sql my b o_op) conn)).
Proof.
  intros Hlive. destruct o_op as [[op result trx]|]; simpl.
  2: { by rewrite deliver_nil, with_conn_same. }
  rewrite get_object_id_from_result_total. simpl.
  destruct op as [o|o|o|o|o|o|tag Htag]; simpl.
  - unfold handle_content_card_create. by erewrite execute_sql_live.
  - unfold handle_content_card_update. by erewrite execute_sql_live.
  - unfold handle_content_card_remove. by erewrite execute_sql_live.
  - unfold handle_permission_create. by erewrite execute_sql_live.
  - unfold handle_permission_remove. by erewrite execute_sql_live.
  - rewrite new_objects_of_result_total. simpl.
    unfold handle_permission_create_many.
    by erewrite permission_create_many_loop_live.
  - destruct (projected_tag_false _ Htag) as (-> & -> & -> & -> & -> & ->).
    by rewrite deliver_nil, with_conn_same.
Qed.

Lemma on_block_loop_live b hist my conn :
  pg_conn my = Some conn →
  on_block_loop b hist my
  = Some (with_conn my (deliver (concat (operation_sql my b <$> hist)) conn)).
Proof.
  revert my conn. induction hist as [|o_op hist IH]; intros my conn Hlive.
  - simpl. by rewrite deliver_nil, with_conn_same.
  - simpl. rewrite (on_block_operation_live _ _ _ _ Hlive). simpl.
    erewrite IH by reflexivity. rewrite deliver_app. do 4 f_equal.
    apply list_fmap_ext. intros _ o _. by eapply operation_sql_live.
Qed.

(** [on_block] never throws; on a live connection it sends the statements
    of [block_sql], which the server runs one after the other. *)
Lemma on_block_live db b my conn :
  pg_conn my = Some conn →
  on_block db b my = Some (with_conn my (deliver (block_sql my db b) conn)).
Proof.
  intros Hlive. unfold on_block, block_sql. rewrite Hlive.
  destruct (_ <? _)%N.
  - by rewrite deliver_nil, with_conn_same.
  - by apply on_block_loop_live.
Qed.

Lemma on_block_no_connection db b my :
  pg_conn my = None → on_block db b my = Some my.
Proof. intros Hnone. unfold on_block. by rewrite Hnone. Qed.

(** The rows a connection holds after statements were sent: row by row, the
    effects of the statements the server took. *)
Lemma deliver_rows sqls conn :
  rows (deliver sqls conn)
  = foldl (λ rows e, run e rows) (rows conn) (effects_of sqls).
Proof.
  unfold deliver, effects_of. simpl. generalize (rows conn).
  induction sqls as [|sql sqls IH]; intros rs; [done|].
  cbn [foldl omap list_omap]. rewrite IH. unfold server_step.
  destruct (server_accepts sql); [|done]. by destruct (analyse sql).
Qed.

Lemma deliver_lookup sqls conn at_ :
  rows (deliver sqls conn) !! at_
  = foldl (row_step at_) (rows conn !! at_) (effects_of sqls).
Proof. by rewrite deliver_rows, foldl_run_lookup. Qed.

Lemma effects_of_app sqls1 sqls2 :
  effects_of (sqls1 ++ sqls2) = (effects_of sqls1 ++ effects_of sqls2)%list.
Proof. apply omap_app. Qed.

Lemma effects_of_elsewhere at_ sqls (r : option row) :
  Forall (λ sql, ∀ e, analyse sql = Some e → addressed e ≠ at_) sqls →
  foldl (row_step at_) r (effects_of sqls) = r.
Proof.
  unfold effects_of. induction 1 as [|sql sqls Hsql _ IH]; [done|].
  cbn [omap list_omap]. destruct (server_accepts sql); [|done].
  destruct (analyse sql) as [e|] eqn:He; [|done].
  cbn [foldl]. rewrite row_step_other by by apply Hsql. done.
Qed.

(** The row under an id that one statement of a list inserts under, and no
    other statement of the list addresses: the proposed row where there was
    none, the old row with the SET clauses applied where there was one. *)
Lemma deliver_one_row sqls i sql conn table key proposed set :
  sqls !! i = Some sql →
  server_accepts sql = true →
  analyse sql = Some (upsert table key proposed set) →
  (∀ j sql' e, j ≠ i → sqls !! j = Some sql' → analyse sql' = Some e →
     addressed e ≠ (table, key)) →
  rows (deliver sqls conn) !! (table, key)
  = Some (from_option (λ old, assign old set) proposed
            (rows conn !! (table, key))).
Proof.
  intros Hi Hacc Ha Hothers. rewrite deliver_lookup.
  rewrite <- (take_drop_middle _ _ _ Hi), effects_of_app, foldl_app.
  rewrite (effects_of_elsewhere _ (take i sqls)).
  - unfold effects_of at 1. cbn [omap list_omap]. rewrite Hacc, Ha.
    cbn [foldl]. rewrite row_step_upsert.
    apply effects_of_elsewhere, Forall_lookup. intros j sql' Hj e He.
    rewrite lookup_drop in Hj. eapply (Hothers (S i + j)%nat); [lia|done..].
  - apply Forall_lookup. intros j sql' [Hj Hlt]%lookup_take_Some e He.
    eapply (Hothers j); [lia|done..].
Qed.

Lemma content_card_create_sql_analysed my conn op bn bt trx oid :
  pg_conn my = Some conn →
  analyse (content_card_create_sql my op bn bt trx oid)
  = Some (upsert "indexer_content_cards" (quoted_text (pending_or trx oid))
      (content_card_row (quoted_text (pending_or trx oid))
         (quoted_text
            (object_id_to_string (content_card_create_operation.subject_account op)))
         (quoted_text (content_card_create_operation.hash op))
         (quoted_text (content_card_create_operation.url op))
         (quoted_text (content_card_create_operation.type op))
         (quoted_text (content_card_create_operation.description op))
         (quoted_text (content_card_create_operation.content_key op))
         (quoted_text (content_card_create_operation.storage_data op))
         bn bt (quoted_text trx) 41)
      (content_fields
         (quoted_text (content_card_create_operation.hash op))
         (quoted_text (content_card_create_operation.url op))
         (quoted_text (content_card_create_operation.type op))
         (quoted_text (content_card_create_operation.description op))
         (quoted_text (content_card_create_operation.content_key op))
         (quoted_text (content_card_create_operation.storage_data op)))).
Proof.
  intros Hlive. unfold content_card_create_sql.
  rewrite !(escape_string_live _ _ _ Hlive).
  apply analyse_content_card_create.
Qed.

Lemma content_card_update_sql_analysed my conn op bn bt trx oid :
  pg_conn my = Some conn →
  analyse (content_card_update_sql my op bn bt trx oid)
  = Some (upsert "indexer_content_cards" (quoted_text (pending_or trx oid))
      (content_card_row (quoted_text (pending_or trx oid))
         (quoted_text
            (object_id_to_string (content_card_update_operation.subject_account op)))
         (quoted_text (content_card_update_operation.hash op))
         (quoted_text (content_card_update_operation.url op))
         (quoted_text (content_card_update_operation.type op))
         (quoted_text (content_card_update_operation.description op))
         (quoted_text (content_card_update_operation.content_key op))
         (quoted_text (content_card_update_operation.storage_data op))
         bn bt (quoted_text trx) 42)
      (content_fields
         (quoted_text (content_card_update_operation.hash op))
         (quoted_text (content_card_update_operation.url op))
         (quoted_text (content_card_update_operation.type op))
         (quoted_text (content_card_update_operation.description op))
         (quoted_text (content_card_update_operation.content_key op))
         (quoted_text (content_card_update_operation.storage_data op))
       ++ [("block_num", SqlInt bn); ("block_time", SqlTimestamp bt);
           ("operation_type", SqlInt 42)])).
Proof.
  intros Hlive. unfold content_card_update_sql.
  rewrite !(escape_string_live _ _ _ Hlive).
  apply analyse_content_card_update.
Qed.

Lemma content_card_remove_sql_analysed my conn op bn bt trx :
  pg_conn my = Some conn →
  analyse (content_card_remove_sql my op bn bt trx)
  = Some (modify "indexer_content_cards"
      (quoted_text
         (object_id_to_string (content_card_remove_operation.content_id op)))
      (removal_fields bn bt 43)).
Proof.
  intros Hlive. unfold content_card_remove_sql.
  rewrite !(escape_string_live _ _ _ Hlive).
  apply analyse_content_card_remove.
Qed.

Lemma permission_create_sql_analysed my conn op bn bt trx oid :
  pg_conn my = Some conn →
  analyse (permission_create_sql my op bn bt trx oid)
  = Some (upsert "indexer_permissions" (quoted_text (pending_or trx oid))
      (permission_row (quoted_text (pending_or trx oid))
         (quoted_text
            (object_id_to_string (permission_create_operation.subject_account op)))
         (quoted_text
            (object_id_to_string (permission_create_operation.operator_account op)))
         (quoted_text (permission_create_operation.permission_type op))
         (quoted_text
            (ref_object_id_string (permission_create_operation.object_id op)))
         (quoted_text (permission_create_operation.content_key op))
         bn bt (quoted_text trx) 44)
      [("permission_type",
        SqlText (quoted_text (permission_create_operation.permission_type op)));
       ("content_key",
        SqlText (quoted_text (permission_create_operation.content_key op)))]).
Proof.
  intros Hlive. unfold permission_create_sql.
  rewrite !(escape_string_live _ _ _ Hlive).
  apply analyse_permission_insert.
Qed.

Lemma permission_create_many_sql_analysed my conn subject perm id bn bt trx :
  pg_conn my = Some conn →
  analyse (permission_create_many_sql my subject perm id bn bt trx)
  = Some (upsert "indexer_permissions" (quoted_text id)
      (permission_row (quoted_text id) (quoted_text subject)
         (quoted_text
            (object_id_to_string
               (permission_create_many_operation.operator_account perm)))
         (quoted_text (permission_create_many_operation.permission_type perm))
         (quoted_text
            (ref_object_id_string (permission_create_many_operation.object_id perm)))
         (quoted_text (permission_create_many_operation.content_key perm))
         bn bt (quoted_text trx) 64)
      [("permission_type",
        SqlText (quoted_text (permission_create_many_operation.permission_type perm)));
       ("content_key",
        SqlText (quoted_text (permission_create_many_operation.content_key perm)))]).
Proof.
  intros Hlive. unfold permission_create_many_sql.
  rewrite !(escape_string_live _ _ _ Hlive).
  apply analyse_permission_insert.
Qed.

Lemma permission_remove_sql_analysed my conn op bn bt trx :
  pg_conn my = Some conn →
  analyse (permission_remove_sql my op bn bt trx)
  = Some (modify "indexer_permissions"
      (quoted_text
         (object_id_to_string (permission_remove_operation.permission_id op)))
      (removal_fields bn bt 45)).
Proof.
  intros Hlive. unfold permission_remove_sql.
  rewrite !(escape_string_live _ _ _ Hlive).
  apply analyse_permission_remove.
Qed.

Lemma effects_of_restate sqls :
  Forall restating sqls → upserts_restate (effects_of sqls).
Proof.
  unfold effects_of, upserts_restate.
  induction 1 as [|sql sqls Hsql _ IH]; [constructor|].
  cbn [omap list_omap]. destruct (server_accepts sql); [|done].
  destruct (analyse sql) as [[table key proposed set|table key set]|] eqn:Ha;
    [|by constructor|done].
  constructor; [|done]. by eapply Hsql.
Qed.

Lemma permission_create_many_loop_sql_restating my conn subject items i obj_it
    bn bt trx :
  pg_conn my = Some conn →
  Forall restating
    (permission_create_many_loop_sql my subject items i obj_it bn bt trx).
Proof.
  intros Hlive. revert i obj_it.
  induction items as [|perm items IH]; intros i obj_it; [constructor|].
  simpl. destruct (next_permission_id obj_it trx i) as [id obj_it'].
  constructor; [|apply IH].
  intros table key proposed set.
  rewrite (permission_create_many_sql_analysed _ _ _ _ _ _ _ _ Hlive).
  intros [= <- <- <- <-]. apply permission_row_restated.
Qed.

Lemma operation_sql_restating my conn b o_op :
  pg_conn my = Some conn → Forall restating (operation_sql my b o_op).
Proof.
  intros Hlive. destruct o_op as [[op result trx]|]; [|constructor].
  unfold operation_sql. simpl.
  destruct op as [o|o|o|o|o|o|tag Htag];
    try (by eapply permission_create_many_loop_sql_restating);
    repeat constructor; intros table key proposed set.
  - rewrite (content_card_create_sql_analysed _ _ _ _ _ _ _ Hlive).
    intros [= <- <- <- <-]. apply content_card_row_restated_41.
  - rewrite (content_card_update_sql_analysed _ _ _ _ _ _ _ Hlive).
    intros [= <- <- <- <-]. apply content_card_row_restated_42.
  - by rewrite (content_card_remove_sql_analysed _ _ _ _ _ _ Hlive).
  - rewrite (permission_create_sql_analysed _ _ _ _ _ _ _ Hlive).
    intros [= <- <- <- <-]. apply permission_row_restated.
  - by rewrite (permission_remove_sql_analysed _ _ _ _ _ _ Hlive).
Qed.

Lemma block_sql_restating my conn db b :
  pg_conn my = Some conn → Forall restating (block_sql my db b).
Proof.
  intros Hlive. unfold block_sql. destruct (_ <? _)%N; [constructor|].
  apply Forall_concat, Forall_fmap, Forall_forall.
  intros o_op _. by eapply operation_sql_restating.
Qed.

Lemma row_of_with_conn my conn table id :
  row_of (with_conn my conn) table id = rows conn !! (table, id).
Proof. reflexivity. Qed.

(** ** The loop of [on_block] *)

Lemma on_block_loop_app b hist1 hist2 my :
  on_block_loop b (hist1 ++ hist2) my
  = on_block_loop b hist1 my ≫= on_block_loop b hist2.
Proof.
  revert my. induction hist1 as [|o_op hist1 IH]; intros my; [done|].
  simpl. destruct (on_block_operation b o_op my) as [my'|]; [|done].
  simpl. apply IH.
Qed.

Lemma on_block_operation_other b o_op my :
  projected_tag (which (op o_op)) = false →
  on_block_operation b (Some o_op) my = Some my.
Proof.
  intros Hother. unfold on_block_operation.
  rewrite get_object_id_from_result_total. simpl.
  by destruct (projected_tag_false _ Hother) as (-> & -> & -> & -> & -> & ->).
Qed.

(** C9.  For a block whose number is below the start block, [on_block]
    returns at once: the plugin, the rows behind its connection and the
    statements sent are what they were. *)
Theorem on_block_below_start_block db b my :
  (block_num b < _start_block my)%N → on_block db b my = Some my.
Proof.
  intros Hbelow. unfold on_block. destruct (pg_conn my); [|done].
  by rewrite (proj2 (N.ltb_lt _ _) Hbelow).
Qed.

(** C8.  An applied operation whose tag is none of 41, 42, 43, 44, 45 and 64
    is a turn of the loop that returns without a throw and leaves the plugin
    as it was: no statement is sent, no row changes.  The block is projected
    as if the operation were not in it: the operations before and after it
    are processed as they are without it. *)
Theorem on_block_skips_other_operations db b o_op
    (before after : list (option operation_history_object)) my :
  projected_tag (which (op o_op)) = false →
  get_applied_operations db = (before ++ Some o_op :: after)%list →
  on_block_operation b (Some o_op) my = Some my ∧
  on_block db b my
  = on_block {| get_applied_operations := (before ++ after)%list |} b my.
Proof.
  intros Hother Hhist. split; [by apply on_block_operation_other|].
  unfold on_block. rewrite Hhist. cbn [get_applied_operations].
  destruct (pg_conn my); [|done]. destruct (_ <? _)%N; [done|].
  rewrite !on_block_loop_app.
  destruct (on_block_loop b before my) as [my'|]; [|done].
  cbn [mbind option_bind on_block_loop].
  by rewrite on_block_operation_other.
Qed.

(** ** Results and identifiers *)

(** C2, amended.  Neither resolution throws.  [get_object_id_from_result],
    which serves the content-card create and update and the permission
    create, gives the identifier of an object-id result and the empty string
    for every other result, the generic one included.  The branch for the
    bulk permission create takes the set of a generic result, in the set's
    order, and the empty set for every other result, the object-id one
    included. *)
Theorem resolution_of_results result :
  get_object_id_from_result result
  = Some (match result with
          | object_id_result id => object_id_to_string id
          | _ => ""
          end) ∧
  new_objects_of_result result
  = Some (match result with
          | generic_result r => new_objects r
          | _ => []
          end).
Proof.
  split; [apply get_object_id_from_result_total|].
  apply new_objects_of_result_total.
Qed.

(** ** Bulk permission create *)

Lemma next_permission_id_drop new_objects trx i :
  next_permission_id (drop i new_objects) trx i
  = (bulk_permission_id new_objects trx i, drop (S i) new_objects).
Proof.
  unfold bulk_permission_id.
  destruct (new_objects !! i) as [id|] eqn:Hi.
  - by rewrite (drop_S _ _ _ Hi).
  - apply lookup_ge_None in Hi.
    by rewrite !drop_ge by lia.
Qed.

Lemma permission_create_many_loop_sql_imap my subject items i new_objects bn bt
    trx :
  permission_create_many_loop_sql my subject items i (drop i new_objects) bn bt trx
  = imap (λ j perm,
            permission_create_many_sql my subject perm
              (bulk_permission_id new_objects trx (i + j)) bn bt trx)
      items.
Proof.
  revert i. induction items as [|perm items IH]; intros i; [done|].
  cbn [permission_create_many_loop_sql]. rewrite next_permission_id_drop.
  rewrite imap_cons, IH, Nat.add_0_r. f_equal.
  apply imap_ext. intros j perm' _. simpl. do 2 f_equal. lia.
Qed.

Lemma permission_create_many_loop_sql_imap_0 my subject items new_objects bn bt
    trx :
  permission_create_many_loop_sql my subject items 0 new_objects bn bt trx
  = imap (λ i perm,
            permission_create_many_sql my subject perm
              (bulk_permission_id new_objects trx i) bn bt trx)
      items.
Proof.
  exact (permission_create_many_loop_sql_imap my subject items 0 new_objects bn
           bt trx).
Qed.

Lemma placeholder_inj (trx : string) (i j : nat) :
  "pending-" +:+ trx +:+ "-" +:+ to_string i
  = "pending-" +:+ trx +:+ "-" +:+ to_string j →
  i = j.
Proof.
  intros Heq. do 3 apply (inj (String.app _)) in Heq.
  by apply (inj pretty) in Heq.
Qed.

(** C5.  On a live connection, [handle_permission_create_many] sends one
    INSERT into [indexer_permissions] per entry of [permissions], in the
    order of the vector and nothing else.  The INSERT of entry [i] is written
    out below: it carries the fields of that entry and, as [permission_id],
    the [i]-th element of [new_objects] while there is one and
    [pending-<trx>-<i>] after that.  Where the server takes the INSERT of
    entry [i], with texts within the widths of their columns, and the other
    entries come under other ids, the row under the id of entry [i] is
    afterwards the one the INSERT proposes, or, where there was a row, that
    row with [permission_type] and [content_key] of the entry.  The
    placeholders of two different entries differ. *)
Theorem handle_permission_create_many_sends op bn bt trx new_objects my conn :
  pg_conn my = Some conn →
  ∃ conn' sqls,
    pg_conn (handle_permission_create_many op bn bt trx new_objects my)
    = Some conn' ∧
    sqls
    = imap (λ i perm,
              INSERT_INTO "indexer_permissions"
                ["permission_id"; "subject_account"; "operator_account";
                 "permission_type"; "object_id"; "content_key"; "block_num";
                 "block_time"; "trx_id"; "operation_type"; "is_removed"]
                [escape_string my (bulk_permission_id new_objects trx i);
                 escape_string my
                   (object_id_to_string
                      (permission_create_many_operation.subject_account op));
                 escape_string my
                   (object_id_to_string
                      (permission_create_many_operation.operator_account perm));
                 escape_string my
                   (permission_create_many_operation.permission_type perm);
                 escape_string my
                   (ref_object_id_string
                      (permission_create_many_operation.object_id perm));
                 escape_string my
                   (permission_create_many_operation.content_key perm);
                 Number bn; to_timestamp bt; escape_string my trx;
                 Number 64; FALSE]
                "permission_id"
                [("permission_type", EXCLUDED "permission_type");
                 ("content_key", EXCLUDED "content_key")])
        (permission_create_many_operation.permissions op) ∧
    sent conn' = (sent conn ++ sqls)%list ∧
    (∀ i perm sql,
       let id := quoted_text (bulk_permission_id new_objects trx i) in
       let proposed :=
         permission_row id
           (quoted_text
              (object_id_to_string
                 (permission_create_many_operation.subject_account op)))
           (quoted_text
              (object_id_to_string
                 (permission_create_many_operation.operator_account perm)))
           (quoted_text (permission_create_many_operation.permission_type perm))
           (quoted_text
              (ref_object_id_string
                 (permission_create_many_operation.object_id perm)))
           (quoted_text (permission_create_many_operation.content_key perm))
           bn bt (quoted_text trx) 64 in
       permission_create_many_operation.permissions op !! i = Some perm →
       sqls !! i = Some sql →
       server_accepts sql = true →
       within_widths "indexer_permissions" proposed = true →
       (∀ j, (j < length (permission_create_many_operation.permissions op))%nat →
             j ≠ i →
             quoted_text (bulk_permission_id new_objects trx j) ≠ id ∧
             (String.length (quoted_text (bulk_permission_id new_objects trx j))
              ≤ 32)%nat) →
       rows conn' !! ("indexer_permissions", id)
       = Some
           (from_option
              (λ old,
                 assign old
                   [("permission_type",
                     SqlText
                       (quoted_text
                          (permission_create_many_operation.permission_type perm)));
                    ("content_key",
                     SqlText
                       (quoted_text
                          (permission_create_many_operation.content_key perm)))])
              proposed
              (rows conn !! ("indexer_permissions", id)))) ∧
    (∀ i id, new_objects !! i = Some id →
       bulk_permission_id new_objects trx i = object_id_to_string id) ∧
    (∀ i, (length new_objects ≤ i)%nat →
       bulk_permission_id new_objects trx i
       = "pending-" +:+ trx +:+ "-" +:+ to_string i) ∧
    (∀ i j, (length new_objects ≤ i)%nat → (length new_objects ≤ j)%nat → i ≠ j →
       bulk_permission_id new_objects trx i
       ≠ bulk_permission_id new_objects trx j).
Proof.
  intros Hlive. eexists _, _. split.
  { unfold handle_permission_create_many.
    by rewrite (permission_create_many_loop_live _ _ _ _ _ _ _ _ _ Hlive). }
  assert (Hpending : ∀ i, (length new_objects ≤ i)%nat →
            bulk_permission_id new_objects trx i
            = "pending-" +:+ trx +:+ "-" +:+ to_string i).
  { intros i Hi. unfold bulk_permission_id.
    by rewrite (proj2 (lookup_ge_None _ _) Hi). }
  pose proof (permission_create_many_loop_sql_imap my
                (object_id_to_string
                   (permission_create_many_operation.subject_account op))
                (permission_create_many_operation.permissions op) 0 new_objects
                bn bt trx) as Himap.
  change (drop 0 new_objects) with new_objects in Himap.
  split; [exact Himap|]. split; [done|].
  split; [|split; [|split; [done|]]].
  - intros i perm sql id proposed Hperm Hsql Hacc _ Hdistinct. subst id proposed.
    rewrite Himap in Hsql |- *.
    pose proof Hsql as Hsql'.
    rewrite list_lookup_imap, Hperm in Hsql'. injection Hsql' as <-.
    eapply deliver_one_row; [exact Hsql|exact Hacc|..].
    + exact (permission_create_many_sql_analysed _ _ _ _ _ _ _ _ Hlive).
    + intros j sql' e Hj [perm' [Hperm' ->]]%list_lookup_imap_Some.
      pose proof (permission_create_many_sql_analysed my conn
                    (object_id_to_string
                       (permission_create_many_operation.subject_account op))
                    perm' (bulk_permission_id new_objects trx j) bn bt trx Hlive)
        as Ha.
      cbn [Nat.add] in *. rewrite Ha. intros [= <-]. cbn [addressed].
      intros [= Heq].
      assert (Hlt : (j < length
                            (permission_create_many_operation.permissions op))%nat)
        by by eapply lookup_lt_Some.
      by destruct (Hdistinct j Hlt Hj).
  - intros i id Hi. unfold bulk_permission_id. by rewrite Hi.
  - intros i j Hi Hj Hij. rewrite !Hpending by done.
    intros Heq. by apply Hij, (placeholder_inj trx).
Qed.

(** ** Placeholders *)




(** ** Conflicts and removals *)

Lemma execute_sql_accepted my conn sql e :
  pg_conn my = Some conn → server_accepts sql = true → analyse sql = Some e →
  (execute_sql sql my).2
  = with_conn my {| rows := run e (rows conn); sent := sent conn ++ [sql] |}.
Proof.
  intros Hlive Hok He. rewrite (execute_sql_live _ _ _ Hlive).
  unfold deliver, server_step. simpl. by rewrite Hok, He.
Qed.

Lemma assign_holds (old : row) set :
  NoDup set.*1 → holds (assign old set) set.
Proof.
  revert old. induction set as [|[c v] set IH]; intros old Hnodup; [constructor|].
  simpl in Hnodup. apply NoDup_cons in Hnodup as [Hc Hnodup].
  rewrite assign_cons. constructor; [|by apply IH].
  simpl. by rewrite assign_lookup_other, lookup_insert_eq.
Qed.

(** An INSERT the server takes, on a row that exists: the row gets the
    ON CONFLICT clauses; every other column and every other row stays. *)
Lemma upsert_on_conflict my conn sql table key proposed set old :
  pg_conn my = Some conn → server_accepts sql = true →
  analyse sql = Some (upsert table key proposed set) →
  NoDup set.*1 →
  rows conn !! (table, key) = Some old →
  ∃ conn' new,
    pg_conn (execute_sql sql my).2 = Some conn' ∧
    rows conn' = <[(table, key) := new]> (rows conn) ∧
    holds new set ∧
    ∀ column, column ∉ set.*1 → new !! column = old !! column.
Proof.
  intros Hlive Hok He Hnodup Hold.
  rewrite (execute_sql_accepted _ _ _ _ Hlive Hok He).
  eexists _, (assign old set). split; [reflexivity|].
  split; [simpl; by rewrite Hold|].
  split; [by apply assign_holds|]. intros column. apply assign_lookup_other.
Qed.

(** An UPDATE the server takes: the row, if there is one, gets the SET
    clauses; every other column and every other row stays. *)
Lemma modify_row my conn sql table key set :
  pg_conn my = Some conn → server_accepts sql = true →
  analyse sql = Some (modify table key set) →
  NoDup set.*1 →
  ∃ conn',
    pg_conn (execute_sql sql my).2 = Some conn' ∧
    match rows conn !! (table, key) with
    | Some old =>
        ∃ new,
          rows conn' = <[(table, key) := new]> (rows conn) ∧
          holds new set ∧
          ∀ column, column ∉ set.*1 → new !! column = old !! column
    | None => rows conn' = rows conn
    end.
Proof.
  intros Hlive Hok He Hnodup.
  rewrite (execute_sql_accepted _ _ _ _ Hlive Hok He).
  eexists. split; [reflexivity|]. simpl.
  destruct (rows conn !! (table, key)) as [old|]; [|done].
  exists (assign old set). split; [done|].
  split; [by apply assign_holds|]. intros column. apply assign_lookup_other.
Qed.

(** C6.  A content-card create that the server takes and that meets a row
    with its [content_card_id] leaves that row with the hash, url, type,
    description, content key and storage data of the operation and with
    every other column as it was: block number, block time, transaction
    id, operation kind and the removed flag among them.  A permission create
    that meets a row with its [permission_id] leaves that row with the
    permission type and content key of the operation and with every other
    column as it was.  No other row changes. *)
Theorem create_on_conflict my conn :
  pg_conn my = Some conn →
  (∀ op bn bt trx oid old,
     server_accepts (content_card_create_sql my op bn bt trx oid) = true →
     rows conn !! ("indexer_content_cards", quoted_text (pending_or trx oid))
     = Some old →
     ∃ conn' new,
       pg_conn (handle_content_card_create op bn bt trx oid my) = Some conn' ∧
       rows conn'
       = <[("indexer_content_cards", quoted_text (pending_or trx oid)) := new]>
           (rows conn) ∧
       holds new
         (content_fields
            (quoted_text (content_card_create_operation.hash op))
            (quoted_text (content_card_create_operation.url op))
            (quoted_text (content_card_create_operation.type op))
            (quoted_text (content_card_create_operation.description op))
            (quoted_text (content_card_create_operation.content_key op))
            (quoted_text (content_card_create_operation.storage_data op))) ∧
       ∀ column,
         column ∉ ["hash"; "url"; "type"; "description"; "content_key";
                   "storage_data"] →
         new !! column = old !! column) ∧
  (∀ op bn bt trx oid old,
     server_accepts (permission_create_sql my op bn bt trx oid) = true →
     rows conn !! ("indexer_permissions", quoted_text (pending_or trx oid))
     = Some old →
     ∃ conn' new,
       pg_conn (handle_permission_create op bn bt trx oid my) = Some conn' ∧
       rows conn'
       = <[("indexer_permissions", quoted_text (pending_or trx oid)) := new]>
           (rows conn) ∧
       holds new
         [("permission_type",
           SqlText (quoted_text (permission_create_operation.permission_type op)));
          ("content_key",
           SqlText (quoted_text (permission_create_operation.content_key op)))] ∧
       ∀ column,
         column ∉ ["permission_type"; "content_key"] →
         new !! column = old !! column).
Proof.
  intros Hlive. split; intros op bn bt trx oid old Hok Hold.
  - eapply upsert_on_conflict; eauto.
    + by eapply content_card_create_sql_analysed.
    + by apply (bool_decide_unpack _).
  - eapply upsert_on_conflict; eauto.
    + by eapply permission_create_sql_analysed.
    + by apply (bool_decide_unpack _).
Qed.

(** C3, amended.  A content-card update that the server takes and that
    meets a row with its [content_card_id] leaves that row with the hash,
    url, type, description, content key and storage data of the operation,
    with the number and time of the block and with operation kind 42; every
    other column is as it was: the transaction id, the removed flag and the
    subject account among them.  No other row changes. *)
Theorem update_on_conflict my conn op bn bt trx oid old :
  pg_conn my = Some conn →
  server_accepts (content_card_update_sql my op bn bt trx oid) = true →
  rows conn !! ("indexer_content_cards", quoted_text (pending_or trx oid))
  = Some old →
  ∃ conn' new,
    pg_conn (handle_content_card_update op bn bt trx oid my) = Some conn' ∧
    rows conn'
    = <[("indexer_content_cards", quoted_text (pending_or trx oid)) := new]>
        (rows conn) ∧
    holds new
      (content_fields
         (quoted_text (content_card_update_operation.hash op))
         (quoted_text (content_card_update_operation.url op))
         (quoted_text (content_card_update_operation.type op))
         (quoted_text (content_card_update_operation.description op))
         (quoted_text (content_card_update_operation.content_key op))
         (quoted_text (content_card_update_operation.storage_data op))
       ++ [("block_num", SqlInt bn); ("block_time", SqlTimestamp bt);
           ("operation_type", SqlInt 42)]) ∧
    ∀ column,
      column ∉ ["hash"; "url"; "type"; "description"; "content_key";
                "storage_data"; "block_num"; "block_time"; "operation_type"] →
      new !! column = old !! column.
Proof.
  intros Hlive Hok Hold.
  eapply upsert_on_conflict; eauto.
  - by eapply content_card_update_sql_analysed.
  - by apply (bool_decide_unpack _).
Qed.

(** C7.  A content-card remove, and likewise a permission remove, that the
    server takes changes at most the row with the id of the operation: that
    row gets the removed flag set, the number and time of the block and the
    operation kind (43, or 45 for a permission), and keeps every other
    column.  Where the table has no row with that id, no row is inserted
    and the table is what it was. *)
Theorem remove_marks_row my conn :
  pg_conn my = Some conn →
  (∀ op bn bt trx,
     server_accepts (content_card_remove_sql my op bn bt trx) = true →
     ∃ conn',
       pg_conn (handle_content_card_remove op bn bt trx my) = Some conn' ∧
       match rows conn !! ("indexer_content_cards",
                           quoted_text
                             (object_id_to_string
                                (content_card_remove_operation.content_id op)))
       with
       | Some old =>
           ∃ new,
             rows conn'
             = <[("indexer_content_cards",
                  quoted_text
                    (object_id_to_string
                       (content_card_remove_operation.content_id op))) := new]>
                 (rows conn) ∧
             holds new (removal_fields bn bt 43) ∧
             ∀ column,
               column ∉ ["is_removed"; "block_num"; "block_time";
                         "operation_type"] →
               new !! column = old !! column
       | None => rows conn' = rows conn
       end) ∧
  (∀ op bn bt trx,
     server_accepts (permission_remove_sql my op bn bt trx) = true →
     ∃ conn',
       pg_conn (handle_permission_remove op bn bt trx my) = Some conn' ∧
       match rows conn !! ("indexer_permissions",
                           quoted_text
                             (object_id_to_string
                                (permission_remove_operation.permission_id op)))
       with
       | Some old =>
           ∃ new,
             rows conn'
             = <[("indexer_permissions",
                  quoted_text
                    (object_id_to_string
                       (permission_remove_operation.permission_id op))) := new]>
                 (rows conn) ∧
             holds new (removal_fields bn bt 45) ∧
             ∀ column,
               column ∉ ["is_removed"; "block_num"; "block_time";
                         "operation_type"] →
               new !! column = old !! column
       | None => rows conn' = rows conn
       end).
Proof.
  intros Hlive. split; intros op bn bt trx Hok.
  - eapply (modify_row _ _ _ _ _ (removal_fields bn bt 43)); eauto.
    + by eapply content_card_remove_sql_analysed.
    + by apply (bool_decide_unpack _).
  - eapply (modify_row _ _ _ _ _ (removal_fields bn bt 45)); eauto.
    + by eapply permission_remove_sql_analysed.
    + by apply (bool_decide_unpack _).
Qed.

(** ** Replay *)

(** The replay at one id: its row exists before the block, or the statements
    of the block that the server takes start, at this id, with an INSERT or
    hold no INSERT. *)
Lemma on_block_replay_at db b my table id :
  is_Some (row_of my table id)
  ∨ created_first (table, id) (effects_of (block_sql my db b)) = true →
  ∃ my1 my2,
    on_block db b my = Some my1 ∧ on_block db b my1 = Some my2 ∧
    row_of my2 table id = row_of my1 table id.
Proof.
  intros Hcond. destruct (pg_conn my) as [conn|] eqn:Hlive.
  - exists (with_conn my (deliver (block_sql my db b) conn)).
    exists (with_conn my
              (deliver (block_sql my db b) (deliver (block_sql my db b) conn))).
    split; [by apply on_block_live|]. split.
    + erewrite on_block_live by reflexivity. do 3 f_equal.
      by eapply block_sql_live.
    + rewrite !row_of_with_conn, !deliver_lookup.
      apply foldl_row_step_twice.
      * eapply effects_of_restate, block_sql_restating, Hlive.
      * destruct Hcond as [Hrow|Hfirst]; [left|by right].
        unfold row_of in Hrow. by rewrite Hlive in Hrow.
  - exists my, my. by rewrite !on_block_no_connection.
Qed.

Lemma never_inserted_effects at_ sqls :
  forallb (λ sql', negb (inserts_under at_ sql')) sqls = true →
  forallb (λ e', match e' with
                 | upsert table key _ _ => negb (bool_decide ((table, key) = at_))
                 | modify _ _ _ => true
                 end) (effects_of sqls) = true.
Proof.
  unfold effects_of. induction sqls as [|sql sqls IH]; [done|].
  cbn [forallb omap list_omap]. intros [Hsql Hsqls]%andb_prop.
  destruct (server_accepts sql); [|by apply IH].
  unfold inserts_under in Hsql.
  destruct (analyse sql) as [[table key proposed set|table key set]|];
    cbn [forallb]; rewrite ?Hsql; by rewrite IH.
Qed.

Lemma no_insert_after_remove_created_first at_ sqls :
  no_insert_after_remove sqls = true →
  created_first at_ (effects_of sqls) = true.
Proof.
  unfold effects_of. induction sqls as [|sql sqls IH]; [done|].
  cbn [no_insert_after_remove omap list_omap].
  intros [Hsql Hsqls]%andb_prop.
  destruct (server_accepts sql); [|by apply IH].
  destruct (analyse sql) as [[table key proposed set|table key set]|];
    [| |by apply IH]; cbn [created_first addressed]; destruct (decide _) as [<-|];
    try done; try (by apply IH).
  by apply never_inserted_effects.
Qed.

(** *** Object ids as text *)

Lemma string_app_cons c (s t : string) : String c s +:+ t = String c (s +:+ t).
Proof. reflexivity. Qed.

Lemma digit_pretty_N_char x : digit (pretty_N_char x) = true.
Proof. unfold pretty_N_char. by repeat case_match. Qed.

Lemma digits_app s t : digits (s +:+ t) = digits s && digits t.
Proof.
  induction s as [|c s IH]; [done|].
  rewrite string_app_cons. simpl. by rewrite IH, andb_assoc.
Qed.

Lemma string_app_snoc (p : string) c s :
  p +:+ String c s = (p +:+ String c "") +:+ s.
Proof.
  induction p as [|a p IH]; [done|]. by rewrite !string_app_cons, IH.
Qed.

Lemma pretty_N_go_digits x s :
  ∃ p, pretty_N_go x s = p +:+ s ∧ digits p = true.
Proof.
  revert s. induction (N.lt_wf_0 x) as [x _ IH]; intros s.
  destruct (decide (x = 0)%N) as [->|Hx].
  { exists "". by rewrite pretty_N_go_0. }
  rewrite pretty_N_go_step by lia.
  destruct (IH (x `div` 10)%N) with (s := String (pretty_N_char (x `mod` 10)) s)
    as (p & -> & Hp).
  { apply N.div_lt; lia. }
  exists (p +:+ String (pretty_N_char (x `mod` 10)) "").
  split.
  - apply string_app_snoc.
  - rewrite digits_app, Hp. simpl. by rewrite digit_pretty_N_char.
Qed.

Lemma pretty_N_digits (x : N) : digits (pretty x) = true ∧ pretty x ≠ "".
Proof.
  unfold pretty, pretty_N. destruct (decide (x = 0)%N) as [->|Hx]; [done|].
  rewrite pretty_N_go_step by lia.
  destruct (pretty_N_go_digits (x `div` 10)
              (String (pretty_N_char (x `mod` 10)) "")) as (p & -> & Hp).
  split.
  - rewrite digits_app, Hp. simpl. by rewrite digit_pretty_N_char.
  - by destruct p.
Qed.

Lemma digits_up_to_zero s t :
  digits s = true → up_to_zero (s +:+ t) = s +:+ up_to_zero t.
Proof.
  induction s as [|c s IH]; [done|]. rewrite string_app_cons. simpl.
  intros [Hc Hs]%andb_prop. rewrite IH by done.
  destruct (Ascii.eqb c Ascii.zero) eqn:Heq; [|done].
  apply Ascii.eqb_eq in Heq. by subst.
Qed.

Lemma digits_split s1 s2 r1 r2 :
  digits s1 = true → digits s2 = true →
  s1 +:+ String "." r1 = s2 +:+ String "." r2 → s1 = s2 ∧ r1 = r2.
Proof.
  revert s2. induction s1 as [|c1 s1 IH]; intros [|c2 s2];
    rewrite ?string_app_cons; simpl.
  - by intros _ _ [= ->].
  - intros _ [Hc _]%andb_prop [= <- _]. done.
  - intros [Hc _]%andb_prop _ [= -> _]. done.
  - intros [_ H1]%andb_prop [_ H2]%andb_prop [= -> Heq].
    destruct (IH _ H1 H2 Heq) as [-> ->]. done.
Qed.

Lemma object_id_to_string_inj o1 o2 :
  object_id_to_string o1 = object_id_to_string o2 → o1 = o2.
Proof.
  destruct o1 as [a1 b1 c1], o2 as [a2 b2 c2]. unfold object_id_to_string.
  simpl. intros Heq.
  apply digits_split in Heq as [Ha Heq]; [|apply pretty_N_digits..].
  apply digits_split in Heq as [Hb Hc]; [|apply pretty_N_digits..].
  apply (inj pretty) in Ha, Hb, Hc. by subst.
Qed.

Lemma object_id_to_string_digit o :
  ∃ c rest, object_id_to_string o = String c rest ∧ digit c = true.
Proof.
  destruct o as [a b c]. unfold object_id_to_string. simpl.
  destruct (pretty_N_digits a) as [Hd Hne].
  destruct (pretty a) as [|ch rest]; [done|].
  simpl in Hd. apply andb_prop in Hd as [Hch _]. by eexists _, _.
Qed.

Lemma digits_up_to_zero_self s : digits s = true → up_to_zero s = s.
Proof.
  induction s as [|c s IH]; [done|]. simpl.
  intros [Hc Hs]%andb_prop. rewrite IH by done.
  destruct (Ascii.eqb c Ascii.zero) eqn:Heq; [|done].
  apply Ascii.eqb_eq in Heq. by subst.
Qed.

Lemma up_to_zero_dot t : up_to_zero ("." +:+ t) = "." +:+ up_to_zero t.
Proof. reflexivity. Qed.

Lemma object_id_to_string_up_to_zero o :
  up_to_zero (object_id_to_string o) = object_id_to_string o.
Proof.
  destruct o as [a b c]. unfold object_id_to_string. simpl.
  rewrite digits_up_to_zero, up_to_zero_dot, digits_up_to_zero, up_to_zero_dot,
    digits_up_to_zero_self; try apply pretty_N_digits. done.
Qed.

(** *** The order of the chain and the order of the statements *)

Lemma no_insert_after_remove_app sqls1 sqls2 :
  no_insert_after_remove sqls1 = true →
  no_insert_after_remove sqls2 = true →
  (∀ sql table key set,
     sql ∈ sqls1 → analyse sql = Some (modify table key set) →
     forallb (λ sql', negb (inserts_under (table, key) sql')) sqls2 = true) →
  no_insert_after_remove (sqls1 ++ sqls2) = true.
Proof.
  induction sqls1 as [|sql sqls1 IH]; [done|].
  cbn [no_insert_after_remove app]. intros [Hsql H1]%andb_prop H2 Hcross.
  apply andb_true_intro. split.
  - destruct (analyse sql) as [[table key proposed set|table key set]|] eqn:Ha;
      [done| |done].
    rewrite forallb_app, Hsql. simpl. eapply Hcross; [|done]. left.
  - apply IH; [done..|]. intros sql' table key set Hin. apply Hcross. by right.
Qed.

Lemma no_insert_after_remove_inserts sqls :
  Forall (λ sql, ∀ table key set, analyse sql ≠ Some (modify table key set)) sqls →
  no_insert_after_remove sqls = true.
Proof.
  induction 1 as [|sql sqls Hsql _ IH]; [done|].
  cbn [no_insert_after_remove]. rewrite IH.
  destruct (analyse sql) as [[table key proposed set|table key set]|] eqn:Ha;
    [done| |done].
  by destruct (Hsql table key set).
Qed.

Section replay.

Variable my : postgres_content_plugin_impl.
Variable conn : PGconn.
Hypothesis Hlive : pg_conn my = Some conn.
Hypothesis Hquotes : ∀ id, PQescapable (object_id_to_string id) = true.

Lemma quoted_text_object_id id :
  quoted_text (object_id_to_string id) = object_id_to_string id.
Proof.
  unfold quoted_text. by rewrite object_id_to_string_up_to_zero, Hquotes.
Qed.

Lemma quoted_text_placeholder rest id :
  quoted_text ("pending-" +:+ rest) ≠ object_id_to_string id.
Proof.
  destruct (object_id_to_string_digit id) as (c & s & -> & Hc).
  unfold quoted_text. destruct (PQescapable _); [|done].
  change (up_to_zero ("pending-" +:+ rest))
    with ("pending-" +:+ up_to_zero rest).
  intros [= <- _]. done.
Qed.

Lemma quoted_text_pending_or trx result :
  (∃ id, result = object_id_result id ∧
         quoted_text (pending_or trx (created_object_id_of result))
         = object_id_to_string id)
  ∨ ∀ id, quoted_text (pending_or trx (created_object_id_of result))
          ≠ object_id_to_string id.
Proof.
  destruct result as [|id| | |]; try (right; apply quoted_text_placeholder).
  left. exists id. split; [done|].
  unfold pending_or. simpl.
  destruct (object_id_to_string_digit id) as (c & s & Heq & _).
  rewrite Heq at 1. simpl. apply quoted_text_object_id.
Qed.

Lemma quoted_text_bulk_permission_id trx result i :
  (∃ id, id ∈ new_objects_of result ∧
         quoted_text (bulk_permission_id (new_objects_of result) trx i)
         = object_id_to_string id)
  ∨ ∀ id, quoted_text (bulk_permission_id (new_objects_of result) trx i)
          ≠ object_id_to_string id.
Proof.
  unfold bulk_permission_id.
  destruct (new_objects_of result !! i) as [id|] eqn:Hi;
    [|right; apply quoted_text_placeholder].
  left. exists id. split; [|apply quoted_text_object_id].
  by eapply list_elem_of_lookup_2.
Qed.

(** The id under which a statement of an applied operation inserts is one the
    operation's result names, or no object id at all. *)
Lemma operation_sql_inserts b o sql table key proposed set :
  sql ∈ operation_sql my b (Some o) →
  analyse sql = Some (upsert table key proposed set) →
  (∃ id, id ∈ inserted_ids o ∧ key = object_id_to_string id)
  ∨ ∀ id, key ≠ object_id_to_string id.
Proof.
  assert (Hsingle : ∀ trx r,
            (∃ id, r = object_id_result id ∧
                   quoted_text (pending_or trx (created_object_id_of r))
                   = object_id_to_string id)
            ∨ (∀ id, quoted_text (pending_or trx (created_object_id_of r))
                     ≠ object_id_to_string id) →
            (∃ id, id ∈ match r with
                        | object_id_result id => [id]
                        | _ => []
                        end ∧
                   quoted_text (pending_or trx (created_object_id_of r))
                   = object_id_to_string id)
            ∨ (∀ id, quoted_text (pending_or trx (created_object_id_of r))
                     ≠ object_id_to_string id)).
  { intros trx r [(id & -> & Heq)|Hnone]; [left|by right].
    exists id. split; [by apply list_elem_of_singleton|done]. }
  destruct o as [o r trx]. unfold operation_sql, inserted_ids.
  cbn [op result trx_in_block].
  destruct o as [o|o|o|o|o|o|tag Htag].
  - intros ->%list_elem_of_singleton.
    rewrite (content_card_create_sql_analysed _ _ _ _ _ _ _ Hlive).
    intros [= <- <- <- <-]. apply Hsingle, quoted_text_pending_or.
  - intros ->%list_elem_of_singleton.
    rewrite (content_card_update_sql_analysed _ _ _ _ _ _ _ Hlive).
    intros [= <- <- <- <-]. apply Hsingle, quoted_text_pending_or.
  - intros ->%list_elem_of_singleton.
    by rewrite (content_card_remove_sql_analysed _ _ _ _ _ _ Hlive).
  - intros ->%list_elem_of_singleton.
    rewrite (permission_create_sql_analysed _ _ _ _ _ _ _ Hlive).
    intros [= <- <- <- <-]. apply Hsingle, quoted_text_pending_or.
  - intros ->%list_elem_of_singleton.
    by rewrite (permission_remove_sql_analysed _ _ _ _ _ _ Hlive).
  - rewrite permission_create_many_loop_sql_imap_0.
    intros (i & perm & -> & _)%elem_of_lookup_imap.
    rewrite (permission_create_many_sql_analysed _ _ _ _ _ _ _ _ Hlive).
    intros [= <- <- <- <-]. apply quoted_text_bulk_permission_id.
  - by intros ?%elem_of_nil.
Qed.

(** A statement of an applied operation that removes does so under the id
    the operation names. *)
Lemma operation_sql_removes b o sql table key set :
  sql ∈ operation_sql my b (Some o) →
  analyse sql = Some (modify table key set) →
  ∃ id, removed_id (op o) = Some id ∧ key = object_id_to_string id.
Proof.
  destruct o as [o r trx]. unfold operation_sql. cbn [op result trx_in_block].
  destruct o as [o|o|o|o|o|o|tag Htag].
  - intros ->%list_elem_of_singleton.
    by rewrite (content_card_create_sql_analysed _ _ _ _ _ _ _ Hlive).
  - intros ->%list_elem_of_singleton.
    by rewrite (content_card_update_sql_analysed _ _ _ _ _ _ _ Hlive).
  - intros ->%list_elem_of_singleton.
    rewrite (content_card_remove_sql_analysed _ _ _ _ _ _ Hlive).
    intros [= <- <- <-]. eexists. split; [done|]. apply quoted_text_object_id.
  - intros ->%list_elem_of_singleton.
    by rewrite (permission_create_sql_analysed _ _ _ _ _ _ _ Hlive).
  - intros ->%list_elem_of_singleton.
    rewrite (permission_remove_sql_analysed _ _ _ _ _ _ Hlive).
    intros [= <- <- <-]. eexists. split; [done|]. apply quoted_text_object_id.
  - rewrite permission_create_many_loop_sql_imap_0.
    intros (i & perm & -> & _)%elem_of_lookup_imap.
    by rewrite (permission_create_many_sql_analysed _ _ _ _ _ _ _ _ Hlive).
  - by intros ?%elem_of_nil.
Qed.

Lemma operation_sql_order b o_op :
  no_insert_after_remove (operation_sql my b o_op) = true.
Proof.
  destruct o_op as [[o r trx]|]; [|done].
  unfold operation_sql. cbn [op result trx_in_block].
  destruct o as [o|o|o|o|o|o|tag Htag]; try done;
    try (cbn [no_insert_after_remove forallb];
         by destruct (analyse _) as [[]|]).
  apply no_insert_after_remove_inserts.
  rewrite permission_create_many_loop_sql_imap_0.
  apply Forall_forall. intros sql (i & perm & -> & _)%elem_of_lookup_imap.
  intros table key set.
  by rewrite (permission_create_many_sql_analysed _ _ _ _ _ _ _ _ Hlive).
Qed.

Lemma chain_order_statements db b :
  chain_order (get_applied_operations db) = true →
  no_insert_after_remove (block_sql my db b) = true.
Proof.
  unfold block_sql. destruct (_ <? _)%N; [done|].
  induction (get_applied_operations db) as [|o_op hist IH]; [done|].
  cbn [chain_order fmap list_fmap concat]. intros [Hhead Hrest]%andb_prop.
  apply no_insert_after_remove_app; [apply operation_sql_order|by apply IH|].
  intros sql table key set Hsql Ha.
  destruct o_op as [o|]; [|by apply elem_of_nil in Hsql].
  destruct (operation_sql_removes _ _ _ _ _ _ Hsql Ha) as (id & Hid & ->).
  cbn [mbind option_bind] in Hhead. rewrite Hid in Hhead.
  apply forallb_forall. intros sql' (sqls & Hsqls & Hsql')%in_concat.
  apply list_elem_of_In, list_elem_of_fmap in Hsqls as (o_op' & -> & Ho').
  apply list_elem_of_In in Hsql'.
  destruct o_op' as [o'|]; [|by apply elem_of_nil in Hsql'].
  apply list_elem_of_In in Ho'.
  pose proof (proj1 (forallb_forall _ _) Hhead _ Ho') as Hfresh.
  cbn beta iota in Hfresh. apply bool_decide_eq_true in Hfresh.
  unfold inserts_under.
  destruct (analyse sql') as [[table' key' proposed set'|]|] eqn:Ha'; [|done..].
  apply negb_true_iff, bool_decide_eq_false. intros [= -> ->].
  destruct (operation_sql_inserts _ _ _ _ _ _ _ Hsql' Ha')
    as [(id' & Hid' & Heq)|Hnone].
  - apply object_id_to_string_inj in Heq. by subst.
  - by apply (Hnone id).
Qed.

End replay.

(** C1.  Projecting a finalized block and then the same block again leaves
    the row of every content-card id and of every permission id as
    projecting the block once leaves it, and [on_block] returns both times.
    The applied operations of the block are in the order of the chain, and
    libpq quotes object ids, which are digits and dots. *)
Theorem on_block_replay db b my :
  (∀ id, PQescapable (object_id_to_string id) = true) →
  chain_order (get_applied_operations db) = true →
  ∃ my1 my2,
    on_block db b my = Some my1 ∧ on_block db b my1 = Some my2 ∧
    ∀ table id, row_of my2 table id = row_of my1 table id.
Proof.
  intros Hquotes Horder. destruct (pg_conn my) as [conn|] eqn:Hlive.
  - exists (with_conn my (deliver (block_sql my db b) conn)).
    exists (with_conn my
              (deliver (block_sql my db b) (deliver (block_sql my db b) conn))).
    split; [by apply on_block_live|]. split.
    + erewrite on_block_live by reflexivity. do 3 f_equal.
      by eapply block_sql_live.
    + intros table id. rewrite !row_of_with_conn, !deliver_lookup.
      apply foldl_row_step_twice.
      * eapply effects_of_restate, block_sql_restating, Hlive.
      * right. apply no_insert_after_remove_created_first.
        by eapply chain_order_statements.
  - exists my, my. by rewrite !on_block_no_connection.
Qed.

End plugin_facts.

(** ** room_create_operation *)

(** C10.  [validate] returns without a throw exactly when the fee amount is
    not negative, the name is not empty and has at most 256 characters, and
    the room key is not empty.  It is a function of the operation alone and
    gives back nothing but that verdict. *)
Theorem room_create_validate_iff (o : room_create_operation.t) :
  room_create_operation.validate o = returns () ↔
  (0 ≤ amount (room_create_operation.fee o))%Z ∧
  room_create_operation.name o ≠ "" ∧
  (String.length (room_create_operation.name o) ≤ 256)%nat ∧
  room_create_operation.room_key o ≠ "".
Proof.
  unfold room_create_operation.validate, FC_ASSERT.
  destruct o as [fee owner name room_key]. simpl.
  destruct (Z.leb_spec 0 (amount fee)); simpl.
  2: { split; [done|]. intros (? & _). lia. }
  destruct name as [|a name]; simpl.
  { split; [done|]. by intros (_ & ? & _). }
  destruct (Nat.leb_spec (String.length name) 255); simpl.
  2: { split; [done|]. intros (_ & _ & ? & _). lia. }
  destruct room_key as [|c room_key]; simpl.
  { split; [done|]. by intros (_ & _ & _ & ?). }
  split; [|done]. intros _. repeat split; try done. lia.
Qed.

(** * More facts about the plugin *)

Section plugin_more_facts.

Context `{pg : PostgreSQL}.

(** ** The effects of a block *)

Lemma effects_of_plugin sqls :
  Forall plugin_statement sqls → Forall plugin_effect (effects_of sqls).
Proof.
  unfold effects_of.
  induction 1 as [|sql sqls Hsql _ IH]; [constructor|].
  cbn [omap list_omap]. destruct (server_accepts sql); [|done].
  destruct (analyse sql) as [e|] eqn:He; [|done].
  constructor; [by apply Hsql|done].
Qed.

Lemma permission_create_many_loop_sql_plugin my conn subject items i obj_it bn
    bt trx :
  pg_conn my = Some conn →
  Forall plugin_statement
    (permission_create_many_loop_sql my subject items i obj_it bn bt trx).
Proof.
  intros Hlive. revert i obj_it.
  induction items as [|perm items IH]; intros i obj_it; [constructor|].
  simpl. destruct (next_permission_id obj_it trx i) as [id obj_it'].
  constructor; [|apply IH]. intros e.
  rewrite (permission_create_many_sql_analysed _ _ _ _ _ _ _ _ Hlive).
  intros [= <-]. apply permission_created.
Qed.

Lemma operation_sql_plugin my conn b o_op :
  pg_conn my = Some conn → Forall plugin_statement (operation_sql my b o_op).
Proof.
  intros Hlive. destruct o_op as [[op result trx]|]; [|constructor].
  unfold operation_sql. simpl.
  destruct op as [o|o|o|o|o|o|tag Htag];
    try (by eapply permission_create_many_loop_sql_plugin);
    try (apply Forall_nil_2); try (apply Forall_singleton; intros e).
  - rewrite (content_card_create_sql_analysed _ _ _ _ _ _ _ Hlive).
    intros [= <-]. apply card_created.
  - rewrite (content_card_update_sql_analysed _ _ _ _ _ _ _ Hlive).
    intros [= <-]. apply card_updated.
  - rewrite (content_card_remove_sql_analysed _ _ _ _ _ _ Hlive).
    intros [= <-]. apply card_removed.
  - rewrite (permission_create_sql_analysed _ _ _ _ _ _ _ Hlive).
    intros [= <-]. apply permission_created.
  - rewrite (permission_remove_sql_analysed _ _ _ _ _ _ Hlive).
    intros [= <-]. apply permission_removed.
Qed.

Lemma block_sql_plugin my conn db b :
  pg_conn my = Some conn → Forall plugin_statement (block_sql my db b).
Proof.
  intros Hlive. unfold block_sql. destruct (_ <? _)%N; [constructor|].
  apply Forall_concat, Forall_fmap, Forall_forall.
  intros o_op _. by eapply operation_sql_plugin.
Qed.

Lemma block_effects_plugin my conn db b :
  pg_conn my = Some conn →
  Forall plugin_effect (effects_of (block_sql my db b)).
Proof. intros Hlive. by eapply effects_of_plugin, block_sql_plugin. Qed.

(** ** What no block changes *)

Lemma plugin_effect_written e (column : string) :
  plugin_effect e →
  column ∈ (effect_set e).*1 → column ∈ written_columns (addressed e).1.
Proof.
  intros He Hin. destruct He; cbn in Hin |- *;
    repeat (apply elem_of_cons in Hin as [->|Hin];
            [by apply (bool_decide_unpack _)|]);
    by apply elem_of_nil in Hin.
Qed.

Lemma clauses_at_written at_ es (column : string) :
  Forall plugin_effect es →
  column ∈ (clauses_at at_ es).*1 → column ∈ written_columns at_.1.
Proof.
  induction 1 as [|e es He _ IH]; simpl.
  - by intros ?%elem_of_nil.
  - rewrite fmap_app, elem_of_app. intros [Hin|Hin]; [|by apply IH].
    destruct (decide (addressed e = at_)) as [<-|_].
    + by apply plugin_effect_written.
    + by apply elem_of_nil in Hin.
Qed.

Lemma assign_keeps_value (r : row) set (column : string) v :
  r !! column = Some v →
  Forall (λ cv, cv.1 = column → cv.2 = v) set →
  assign r set !! column = Some v.
Proof.
  intros Hr Hset. revert r Hr.
  induction Hset as [|[c w] set Hc _ IH]; intros r Hr; [done|].
  rewrite assign_cons. apply IH. simpl in Hc.
  destruct (decide (c = column)) as [->|Hne].
  - by rewrite lookup_insert_eq, Hc.
  - by rewrite lookup_insert_ne.
Qed.

Lemma plugin_effect_removes e :
  plugin_effect e →
  Forall (λ cv, cv.1 = "is_removed" → cv.2 = SqlBool true) (effect_set e).
Proof.
  intros He. destruct He; cbn;
    repeat (apply Forall_cons; split; [by intros ?; simplify_eq/=|]);
    apply Forall_nil_2.
Qed.

Lemma clauses_at_removes at_ es :
  Forall plugin_effect es →
  Forall (λ cv, cv.1 = "is_removed" → cv.2 = SqlBool true) (clauses_at at_ es).
Proof.
  induction 1 as [|e es He _ IH]; simpl; [constructor|].
  apply Forall_app. split; [|done].
  destruct (decide (addressed e = at_)); [|constructor].
  by apply plugin_effect_removes in He.
Qed.

(** The row of [table] with [id] after a block, when it exists before:
    the old row with the SET clauses of the block's effects on it. *)
Lemma on_block_row_of db b my conn table id old :
  pg_conn my = Some conn →
  rows conn !! (table, id) = Some old →
  ∃ my1,
    on_block db b my = Some my1 ∧
    row_of my1 table id
    = Some (assign old
              (clauses_at (table, id) (effects_of (block_sql my db b)))).
Proof.
  intros Hlive Hold. eexists. split; [by apply on_block_live|].
  by rewrite row_of_with_conn, deliver_lookup, Hold, foldl_row_step_Some.
Qed.

(** X1.  No block deletes a row, and no block changes a column outside the
    SET clauses of the plugin: a row that exists before [on_block] exists
    after it, with its id, subject account and transaction id (and, for a
    permission, its operator account and object id) as they were. *)
Theorem on_block_keeps_columns db b my table id old (column : string) :
  row_of my table id = Some old →
  column ∉ written_columns table →
  ∃ my1 new,
    on_block db b my = Some my1 ∧
    row_of my1 table id = Some new ∧
    new !! column = old !! column.
Proof.
  intros Hold Hcolumn. unfold row_of in Hold.
  destruct (pg_conn my) as [conn|] eqn:Hlive; [|done]. simpl in Hold.
  destruct (on_block_row_of db b my conn table id old Hlive Hold)
    as (my1 & Hblock & Hrow).
  eexists _, _. split; [done|]. split; [done|].
  apply assign_lookup_other. intros Hin. apply Hcolumn.
  eapply (clauses_at_written (table, id)); [|done].
  by eapply block_effects_plugin.
Qed.

(** X2.  No block takes a removal back: a row that is marked removed before
    [on_block] is marked removed after it, whatever the block holds. *)
Theorem on_block_keeps_removed db b my table id old :
  row_of my table id = Some old →
  old !! "is_removed" = Some (SqlBool true) →
  ∃ my1 new,
    on_block db b my = Some my1 ∧
    row_of my1 table id = Some new ∧
    new !! "is_removed" = Some (SqlBool true).
Proof.
  intros Hold Hremoved. unfold row_of in Hold.
  destruct (pg_conn my) as [conn|] eqn:Hlive; [|done]. simpl in Hold.
  destruct (on_block_row_of db b my conn table id old Hlive Hold)
    as (my1 & Hblock & Hrow).
  eexists _, _. split; [done|]. split; [done|].
  apply assign_keeps_value; [done|].
  by eapply clauses_at_removes, block_effects_plugin.
Qed.

(** ** One statement, one row *)

Lemma execute_sql_no_connection sql my :
  pg_conn my = None → (execute_sql sql my).2 = my.
Proof. intros Hnone. unfold execute_sql. by rewrite Hnone. Qed.

Lemma deliver_elsewhere my conn sqls table id :
  pg_conn my = Some conn →
  Forall (λ sql, ∀ e, analyse sql = Some e → addressed e ≠ (table, id)) sqls →
  row_of (with_conn my (deliver sqls conn)) table id = row_of my table id.
Proof.
  intros Hlive Hsqls. rewrite row_of_with_conn, deliver_lookup.
  rewrite effects_of_elsewhere by done. unfold row_of. by rewrite Hlive.
Qed.

Lemma execute_sql_elsewhere my sql table id :
  (∀ conn e, pg_conn my = Some conn → analyse sql = Some e →
             addressed e ≠ (table, id)) →
  row_of (execute_sql sql my).2 table id = row_of my table id.
Proof.
  intros Hsql. destruct (pg_conn my) as [conn|] eqn:Hlive.
  - rewrite (execute_sql_live _ _ _ Hlive).
    apply deliver_elsewhere; [done|]. apply Forall_singleton. eauto.
  - by rewrite execute_sql_no_connection.
Qed.

(** X3.  Each handler changes no row but the one it names: a content-card
    handler leaves every permission and every other content card as it was,
    a permission handler every content card and every other permission; the
    bulk create changes rows of [indexer_permissions] with the ids of its
    items only.  This holds whether the server takes the statement or not,
    with or without a connection. *)
Theorem handlers_change_one_row my table id :
  (∀ op bn bt trx oid,
     (table, id) ≠ ("indexer_content_cards", quoted_text (pending_or trx oid)) →
     row_of (handle_content_card_create op bn bt trx oid my) table id
     = row_of my table id) ∧
  (∀ op bn bt trx oid,
     (table, id) ≠ ("indexer_content_cards", quoted_text (pending_or trx oid)) →
     row_of (handle_content_card_update op bn bt trx oid my) table id
     = row_of my table id) ∧
  (∀ op bn bt trx,
     (table, id)
     ≠ ("indexer_content_cards",
        quoted_text
          (object_id_to_string (content_card_remove_operation.content_id op))) →
     row_of (handle_content_card_remove op bn bt trx my) table id
     = row_of my table id) ∧
  (∀ op bn bt trx oid,
     (table, id) ≠ ("indexer_permissions", quoted_text (pending_or trx oid)) →
     row_of (handle_permission_create op bn bt trx oid my) table id
     = row_of my table id) ∧
  (∀ op bn bt trx,
     (table, id)
     ≠ ("indexer_permissions",
        quoted_text
          (object_id_to_string (permission_remove_operation.permission_id op))) →
     row_of (handle_permission_remove op bn bt trx my) table id
     = row_of my table id) ∧
  (∀ op bn bt trx new_objects,
     (∀ i, (i < length (permission_create_many_operation.permissions op))%nat →
           (table, id)
           ≠ ("indexer_permissions",
              quoted_text (bulk_permission_id new_objects trx i))) →
     row_of (handle_permission_create_many op bn bt trx new_objects my) table id
     = row_of my table id).
Proof.
  repeat split.
  - intros op bn bt trx oid Hne. apply execute_sql_elsewhere.
    intros conn e Hlive.
    rewrite (content_card_create_sql_analysed _ _ _ _ _ _ _ Hlive).
    by intros [= <-].
  - intros op bn bt trx oid Hne. apply execute_sql_elsewhere.
    intros conn e Hlive.
    rewrite (content_card_update_sql_analysed _ _ _ _ _ _ _ Hlive).
    by intros [= <-].
  - intros op bn bt trx Hne. apply execute_sql_elsewhere.
    intros conn e Hlive.
    rewrite (content_card_remove_sql_analysed _ _ _ _ _ _ Hlive).
    by intros [= <-].
  - intros op bn bt trx oid Hne. apply execute_sql_elsewhere.
    intros conn e Hlive.
    rewrite (permission_create_sql_analysed _ _ _ _ _ _ _ Hlive).
    by intros [= <-].
  - intros op bn bt trx Hne. apply execute_sql_elsewhere.
    intros conn e Hlive.
    rewrite (permission_remove_sql_analysed _ _ _ _ _ _ Hlive).
    by intros [= <-].
  - intros op bn bt trx new_objects Hne.
    unfold handle_permission_create_many.
    destruct (pg_conn my) as [conn|] eqn:Hlive.
    + rewrite (permission_create_many_loop_live _ _ _ _ _ _ _ _ _ Hlive).
      apply deliver_elsewhere; [done|].
      rewrite <- (drop_0 new_objects) at 1.
      rewrite permission_create_many_loop_sql_imap.
      apply Forall_lookup. intros i sql.
      rewrite list_lookup_imap. intros Hi e.
      destruct (permission_create_many_operation.permissions op !! i)
        as [perm|] eqn:Hperm; [|done].
      simpl in Hi. injection Hi as <-.
      rewrite (permission_create_many_sql_analysed _ _ _ _ _ _ _ _ Hlive).
      intros [= <-] Heq. apply (Hne i); [by eapply lookup_lt_Some|].
      by rewrite <- Heq.
    + clear Hne.
      generalize (object_id_to_string
                    (permission_create_many_operation.subject_account op)).
      intros subject. generalize 0%nat. revert new_objects.
      induction (permission_create_many_operation.permissions op)
        as [|perm items IH]; intros new_objects i; [done|].
      simpl. destruct (next_permission_id new_objects trx i) as [pid obj_it].
      rewrite execute_sql_no_connection by done. apply IH.
Qed.

(** ** Inserts *)

(** An INSERT the server takes, with no row under its key: the proposed row
    is stored, and no other row changes. *)
Lemma upsert_fresh my conn sql table key proposed set :
  pg_conn my = Some conn → server_accepts sql = true →
  analyse sql = Some (upsert table key proposed set) →
  rows conn !! (table, key) = None →
  ∃ conn',
    pg_conn (execute_sql sql my).2 = Some conn' ∧
    rows conn' = <[(table, key) := proposed]> (rows conn).
Proof.
  intros Hlive Hok He Hnone.
  rewrite (execute_sql_accepted _ _ _ _ Hlive Hok He).
  eexists. split; [reflexivity|]. simpl. by rewrite Hnone.
Qed.

(** X4.  A create or update the server takes, for an id that has no row
    yet, stores one row under that id and changes no other: the row has the
    id, the accounts and the fields of the operation, the number and time
    of the block, the transaction id, the kind of the operation (41, 42 or
    44) and the removed flag unset.  Each text is stored as libpq reads it,
    up to its first zero byte, and a text libpq cannot quote as the empty
    text; the texts are within the widths of their columns. *)
Theorem create_inserts_row my conn :
  pg_conn my = Some conn →
  (∀ op bn bt trx oid,
     let proposed :=
       content_card_row (quoted_text (pending_or trx oid))
         (quoted_text
            (object_id_to_string
               (content_card_create_operation.subject_account op)))
         (quoted_text (content_card_create_operation.hash op))
         (quoted_text (content_card_create_operation.url op))
         (quoted_text (content_card_create_operation.type op))
         (quoted_text (content_card_create_operation.description op))
         (quoted_text (content_card_create_operation.content_key op))
         (quoted_text (content_card_create_operation.storage_data op))
         bn bt (quoted_text trx) 41 in
     server_accepts (content_card_create_sql my op bn bt trx oid) = true →
     within_widths "indexer_content_cards" proposed = true →
     rows conn !! ("indexer_content_cards", quoted_text (pending_or trx oid))
     = None →
     ∃ conn',
       pg_conn (handle_content_card_create op bn bt trx oid my) = Some conn' ∧
       rows conn'
       = <[("indexer_content_cards", quoted_text (pending_or trx oid)) :=
             proposed]>
           (rows conn)) ∧
  (∀ op bn bt trx oid,
     let proposed :=
       content_card_row (quoted_text (pending_or trx oid))
         (quoted_text
            (object_id_to_string
               (content_card_update_operation.subject_account op)))
         (quoted_text (content_card_update_operation.hash op))
         (quoted_text (content_card_update_operation.url op))
         (quoted_text (content_card_update_operation.type op))
         (quoted_text (content_card_update_operation.description op))
         (quoted_text (content_card_update_operation.content_key op))
         (quoted_text (content_card_update_operation.storage_data op))
         bn bt (quoted_text trx) 42 in
     server_accepts (content_card_update_sql my op bn bt trx oid) = true →
     within_widths "indexer_content_cards" proposed = true →
     rows conn !! ("indexer_content_cards", quoted_text (pending_or trx oid))
     = None →
     ∃ conn',
       pg_conn (handle_content_card_update op bn bt trx oid my) = Some conn' ∧
       rows conn'
       = <[("indexer_content_cards", quoted_text (pending_or trx oid)) :=
             proposed]>
           (rows conn)) ∧
  (∀ op bn bt trx oid,
     let proposed :=
       permission_row (quoted_text (pending_or trx oid))
         (quoted_text
            (object_id_to_string
               (permission_create_operation.subject_account op)))
         (quoted_text
            (object_id_to_string
               (permission_create_operation.operator_account op)))
         (quoted_text (permission_create_operation.permission_type op))
         (quoted_text
            (ref_object_id_string (permission_create_operation.object_id op)))
         (quoted_text (permission_create_operation.content_key op))
         bn bt (quoted_text trx) 44 in
     server_accepts (permission_create_sql my op bn bt trx oid) = true →
     within_widths "indexer_permissions" proposed = true →
     rows conn !! ("indexer_permissions", quoted_text (pending_or trx oid))
     = None →
     ∃ conn',
       pg_conn (handle_permission_create op bn bt trx oid my) = Some conn' ∧
       rows conn'
       = <[("indexer_permissions", quoted_text (pending_or trx oid)) :=
             proposed]>
           (rows conn)).
Proof.
  intros Hlive. repeat split; intros op bn bt trx oid proposed Hok _ Hnone.
  - eapply upsert_fresh; eauto. by eapply content_card_create_sql_analysed.
  - eapply upsert_fresh; eauto. by eapply content_card_update_sql_analysed.
  - eapply upsert_fresh; eauto. by eapply permission_create_sql_analysed.
Qed.

(** An INSERT the server takes: afterwards the row under its key exists and
    holds the ON CONFLICT clauses, whether it existed before or not. *)
Lemma upsert_stored my conn sql table key proposed set :
  pg_conn my = Some conn → server_accepts sql = true →
  analyse sql = Some (upsert table key proposed set) →
  NoDup set.*1 → holds proposed set →
  ∃ new, row_of (execute_sql sql my).2 table key = Some new ∧ holds new set.
Proof.
  intros Hlive Hok He Hnodup Hproposed.
  rewrite (execute_sql_accepted _ _ _ _ Hlive Hok He), row_of_with_conn.
  simpl. destruct (rows conn !! (table, key)) as [old|].
  - exists (assign old set). split; [apply lookup_insert_eq|].
    by apply assign_holds.
  - exists proposed. split; [apply lookup_insert_eq|done].
Qed.

(** X5.  The latest write is the one read: after a content-card update the
    server takes, the row under its id exists and holds the hash, url,
    type, description, content key and storage data of that update, the
    number and time of its block and kind 42, whether the row existed or
    not and whatever was written to it before.  After a content-card create
    the server takes, the row holds the six content fields of the create.
    Each text is held as libpq reads it, up to its first zero byte, and a
    text libpq cannot quote as the empty text; the texts of the statement
    are within the widths of their columns. *)
Theorem accepted_write_is_stored my conn :
  pg_conn my = Some conn →
  (∀ op bn bt trx oid,
     server_accepts (content_card_update_sql my op bn bt trx oid) = true →
     within_widths "indexer_content_cards"
       (content_card_row (quoted_text (pending_or trx oid))
          (quoted_text
             (object_id_to_string
                (content_card_update_operation.subject_account op)))
          (quoted_text (content_card_update_operation.hash op))
          (quoted_text (content_card_update_operation.url op))
          (quoted_text (content_card_update_operation.type op))
          (quoted_text (content_card_update_operation.description op))
          (quoted_text (content_card_update_operation.content_key op))
          (quoted_text (content_card_update_operation.storage_data op))
          bn bt (quoted_text trx) 42)
     = true →
     ∃ new,
       row_of (handle_content_card_update op bn bt trx oid my)
         "indexer_content_cards" (quoted_text (pending_or trx oid))
       = Some new ∧
       holds new
         (content_fields
            (quoted_text (content_card_update_operation.hash op))
            (quoted_text (content_card_update_operation.url op))
            (quoted_text (content_card_update_operation.type op))
            (quoted_text (content_card_update_operation.description op))
            (quoted_text (content_card_update_operation.content_key op))
            (quoted_text (content_card_update_operation.storage_data op))
          ++ [("block_num", SqlInt bn); ("block_time", SqlTimestamp bt);
              ("operation_type", SqlInt 42)])) ∧
  (∀ op bn bt trx oid,
     server_accepts (content_card_create_sql my op bn bt trx oid) = true →
     within_widths "indexer_content_cards"
       (content_card_row (quoted_text (pending_or trx oid))
          (quoted_text
             (object_id_to_string
                (content_card_create_operation.subject_account op)))
          (quoted_text (content_card_create_operation.hash op))
          (quoted_text (content_card_create_operation.url op))
          (quoted_text (content_card_create_operation.type op))
          (quoted_text (content_card_create_operation.description op))
          (quoted_text (content_card_create_operation.content_key op))
          (quoted_text (content_card_create_operation.storage_data op))
          bn bt (quoted_text trx) 41)
     = true →
     ∃ new,
       row_of (handle_content_card_create op bn bt trx oid my)
         "indexer_content_cards" (quoted_text (pending_or trx oid))
       = Some new ∧
       holds new
         (content_fields
            (quoted_text (content_card_create_operation.hash op))
            (quoted_text (content_card_create_operation.url op))
            (quoted_text (content_card_create_operation.type op))
            (quoted_text (content_card_create_operation.description op))
            (quoted_text (content_card_create_operation.content_key op))
            (quoted_text (content_card_create_operation.storage_data op)))).
Proof.
  intros Hlive. split; intros op bn bt trx oid Hok _.
  - eapply upsert_stored; eauto.
    + by eapply content_card_update_sql_analysed.
    + by apply (bool_decide_unpack _).
    + apply content_card_row_restated_42.
  - eapply upsert_stored; eauto.
    + by eapply content_card_create_sql_analysed.
    + by apply (bool_decide_unpack _).
    + apply content_card_row_restated_41.
Qed.

(** ** Without a connection, with a server that refuses *)

Lemma permission_create_many_loop_no_connection subject items i obj_it bn bt trx
    my :
  pg_conn my = None →
  permission_create_many_loop subject items i obj_it bn bt trx my = my.
Proof.
  intros Hnone. revert i obj_it.
  induction items as [|perm items IH]; intros i obj_it; [done|].
  simpl. destruct (next_permission_id obj_it trx i) as [pid obj_it'].
  rewrite execute_sql_no_connection by done. apply IH.
Qed.

(** X6.  Without a connection nothing is written and nothing throws: each
    of the six handlers gives the plugin back as it was, and so does
    [on_block] for every block. *)
Theorem without_connection my :
  pg_conn my = None →
  (∀ op bn bt trx oid, handle_content_card_create op bn bt trx oid my = my) ∧
  (∀ op bn bt trx oid, handle_content_card_update op bn bt trx oid my = my) ∧
  (∀ op bn bt trx, handle_content_card_remove op bn bt trx my = my) ∧
  (∀ op bn bt trx oid, handle_permission_create op bn bt trx oid my = my) ∧
  (∀ op bn bt trx, handle_permission_remove op bn bt trx my = my) ∧
  (∀ op bn bt trx new_objects,
     handle_permission_create_many op bn bt trx new_objects my = my) ∧
  (∀ db b, on_block db b my = Some my).
Proof.
  intros Hnone. repeat split; intros.
  - by apply execute_sql_no_connection.
  - by apply execute_sql_no_connection.
  - by apply execute_sql_no_connection.
  - by apply execute_sql_no_connection.
  - by apply execute_sql_no_connection.
  - by apply permission_create_many_loop_no_connection.
  - by apply on_block_no_connection.
Qed.

Lemma foldl_server_step_accepted (sqls : list statement) (rs : table_rows) :
  foldl server_step rs sqls
  = foldl server_step rs (filter (λ sql, server_accepts sql = true) sqls).
Proof.
  revert rs. induction sqls as [|sql sqls IH]; intros rs; [done|].
  rewrite filter_cons. destruct (decide (server_accepts sql = true)) as [Hok|Hno].
  - simpl. apply IH.
  - simpl. rewrite <- IH. f_equal. unfold server_step.
    by destruct (server_accepts sql).
Qed.

(** X7.  A statement the server refuses stops nothing: on a live connection
    [on_block] returns, has sent every statement of the block in order,
    refused ones included, and leaves the rows that the statements the
    server took give, run in order, as if the refused ones had not been
    sent. *)
Theorem on_block_runs_accepted db b my conn :
  pg_conn my = Some conn →
  ∃ conn',
    on_block db b my = Some (with_conn my conn') ∧
    sent conn' = (sent conn ++ block_sql my db b)%list ∧
    rows conn'
    = foldl server_step (rows conn)
        (filter (λ sql, server_accepts sql = true) (block_sql my db b)).
Proof.
  intros Hlive. eexists. split; [by apply on_block_live|].
  split; [done|]. cbn [deliver rows]. apply foldl_server_step_accepted.
Qed.

(** ** The list of applied operations *)

Lemma on_block_loop_void b hist my :
  on_block_loop b hist my = on_block_loop b (filter is_Some hist) my.
Proof.
  revert my. induction hist as [|[o_op|] hist IH]; intros my; [done| |].
  - rewrite filter_cons_True by done. cbn [on_block_loop].
    destruct (on_block_operation b (Some o_op) my) as [my'|]; [|done].
    apply IH.
  - rewrite filter_cons_False by (by intros [? [=]]). apply IH.
Qed.

(** X8.  The void entries of the applied operations count for nothing: a
    block is projected as the same block with those entries left out. *)
Theorem on_block_skips_void_entries db b my :
  on_block db b my
  = on_block
      {| get_applied_operations := filter is_Some (get_applied_operations db) |}
      b my.
Proof.
  unfold on_block. cbn [get_applied_operations].
  destruct (pg_conn my); [|done]. destruct (_ <? _)%N; [done|].
  apply on_block_loop_void.
Qed.

Lemma on_block_gated db b my :
  (block_num b <? _start_block my)%N = true → on_block db b my = Some my.
Proof. intros Hgate. unfold on_block. rewrite Hgate. by destruct (pg_conn my). Qed.

Lemma on_block_open db b my conn :
  pg_conn my = Some conn → (block_num b <? _start_block my)%N = false →
  on_block db b my = on_block_loop b (get_applied_operations db) my.
Proof. intros Hlive Hgate. unfold on_block. by rewrite Hlive, Hgate. Qed.

(** X9.  The applied operations are projected one after the other, each on
    what the ones before it left: projecting a block whose list is two
    lists joined is projecting the first list and then, on the result, the
    second, under the same block header. *)
Theorem on_block_app b (hist1 hist2 : list (option operation_history_object)) my :
  on_block {| get_applied_operations := (hist1 ++ hist2)%list |} b my
  = on_block {| get_applied_operations := hist1 |} b my
    ≫= on_block {| get_applied_operations := hist2 |} b.
Proof.
  destruct (pg_conn my) as [conn|] eqn:Hlive.
  2: { rewrite !on_block_no_connection by done. simpl.
       by rewrite on_block_no_connection. }
  destruct (block_num b <? _start_block my)%N eqn:Hgate.
  { rewrite !on_block_gated by done. simpl. by rewrite on_block_gated. }
  rewrite !(on_block_open _ _ _ _ Hlive Hgate). cbn [get_applied_operations].
  rewrite on_block_loop_app, (on_block_loop_live _ hist1 _ _ Hlive).
  cbn [mbind option_bind].
  by erewrite on_block_open.
Qed.

(** ** The plugin after a block *)

(** X14.  [on_block] returns for every block and every state of the
    plugin: no [get] on an operation or a result throws.  It keeps the
    start block, keeps a connection that is there and opens none, and only
    adds to the statements sent. *)
Theorem on_block_returns db b my :
  ∃ my1,
    on_block db b my = Some my1 ∧
    _start_block my1 = _start_block my ∧
    (is_Some (pg_conn my1) ↔ is_Some (pg_conn my)) ∧
    ∀ conn, pg_conn my = Some conn →
      ∃ conn1 sqls,
        pg_conn my1 = Some conn1 ∧ sent conn1 = (sent conn ++ sqls)%list.
Proof.
  destruct (pg_conn my) as [conn|] eqn:Hlive.
  - eexists. split; [by apply on_block_live|]. split; [done|].
    split; [done|]. intros conn0 [= <-]. by eexists _, _.
  - exists my. split; [by apply on_block_no_connection|]. split; [done|].
    split; [by rewrite Hlive|done].
Qed.

(** ** Bulk creates with more identifiers than items *)

Lemma bulk_permission_id_take new_objects trx n i :
  (i < n)%nat →
  bulk_permission_id (take n new_objects) trx i
  = bulk_permission_id new_objects trx i.
Proof.
  intros Hi. unfold bulk_permission_id. by rewrite lookup_take_lt.
Qed.

Lemma permission_create_many_loop_sql_take my subject items new_objects bn bt
    trx :
  permission_create_many_loop_sql my subject items 0
    (take (length items) new_objects) bn bt trx
  = permission_create_many_loop_sql my subject items 0 new_objects bn bt trx.
Proof.
  rewrite !permission_create_many_loop_sql_imap_0.
  apply imap_ext. intros i perm Hi. simpl.
  rewrite bulk_permission_id_take; [done|]. by eapply lookup_lt_Some.
Qed.

(** X15.  A bulk create reads one identifier per item and no more: the
    identifiers of [new_objects] past the number of items change nothing,
    neither the statements sent nor the rows. *)
Theorem handle_permission_create_many_surplus op bn bt trx new_objects my :
  handle_permission_create_many op bn bt trx
    (take (length (permission_create_many_operation.permissions op)) new_objects)
    my
  = handle_permission_create_many op bn bt trx new_objects my.
Proof.
  unfold handle_permission_create_many.
  destruct (pg_conn my) as [conn|] eqn:Hlive.
  - rewrite !(permission_create_many_loop_live _ _ _ _ _ _ _ _ _ Hlive).
    by rewrite permission_create_many_loop_sql_take.
  - by rewrite !permission_create_many_loop_no_connection.
Qed.

(** ** A create and then a remove *)

Lemma content_card_remove_sql_live my my' conn conn' op bn bt trx :
  pg_conn my = Some conn → pg_conn my' = Some conn' →
  content_card_remove_sql my op bn bt trx
  = content_card_remove_sql my' op bn bt trx.
Proof.
  intros H1 H2. unfold content_card_remove_sql.
  by rewrite (escape_string_live _ _ _ H1), (escape_string_live _ _ _ H2).
Qed.

(** X16.  A content card that is created and then removed, both statements
    taken by the server and no row under its id before, ends as one row:
    the row of the create, marked removed, with the number and time of the
    removing block and kind 43; its content, subject and transaction id are
    those of the create, each text as libpq reads it, up to its first zero
    byte, and within the width of its column. *)
Theorem create_then_remove my conn create remove bn bt trx oid bn' bt' trx' :
  pg_conn my = Some conn →
  quoted_text (pending_or trx oid)
  = quoted_text
      (object_id_to_string (content_card_remove_operation.content_id remove)) →
  server_accepts (content_card_create_sql my create bn bt trx oid) = true →
  server_accepts (content_card_remove_sql my remove bn' bt' trx') = true →
  within_widths "indexer_content_cards"
    (content_card_row (quoted_text (pending_or trx oid))
       (quoted_text
          (object_id_to_string
             (content_card_create_operation.subject_account create)))
       (quoted_text (content_card_create_operation.hash create))
       (quoted_text (content_card_create_operation.url create))
       (quoted_text (content_card_create_operation.type create))
       (quoted_text (content_card_create_operation.description create))
       (quoted_text (content_card_create_operation.content_key create))
       (quoted_text (content_card_create_operation.storage_data create))
       bn bt (quoted_text trx) 41)
  = true →
  rows conn !! ("indexer_content_cards", quoted_text (pending_or trx oid))
  = None →
  row_of
    (handle_content_card_remove remove bn' bt' trx'
       (handle_content_card_create create bn bt trx oid my))
    "indexer_content_cards" (quoted_text (pending_or trx oid))
  = Some
      (assign
         (content_card_row (quoted_text (pending_or trx oid))
            (quoted_text
               (object_id_to_string
                  (content_card_create_operation.subject_account create)))
            (quoted_text (content_card_create_operation.hash create))
            (quoted_text (content_card_create_operation.url create))
            (quoted_text (content_card_create_operation.type create))
            (quoted_text (content_card_create_operation.description create))
            (quoted_text (content_card_create_operation.content_key create))
            (quoted_text (content_card_create_operation.storage_data create))
            bn bt (quoted_text trx) 41)
         (removal_fields bn' bt' 43)).
Proof.
  intros Hlive Hsame Hcreate Hremove _ Hnone.
  destruct (upsert_fresh my conn _ _ _ _ _ Hlive Hcreate
              (content_card_create_sql_analysed _ _ _ _ _ _ _ Hlive) Hnone)
    as (conn1 & Hlive1 & Hrows1).
  unfold handle_content_card_create at 1.
  set (my1 := (execute_sql (content_card_create_sql my create bn bt trx oid)
                 my).2) in *.
  unfold handle_content_card_remove.
  rewrite (content_card_remove_sql_live my1 my conn1 conn) by done.
  rewrite (execute_sql_accepted my1 conn1 _ _ Hlive1 Hremove
             (content_card_remove_sql_analysed _ _ _ _ _ _ Hlive)).
  rewrite row_of_with_conn. cbn [rows run]. rewrite <- Hsame, Hrows1.
  by rewrite !lookup_insert_eq.
Qed.

(** ** An operation outside the block's transactions *)

(** X17.  An applied operation whose [trx_in_block] is past the block's
    transactions gets the empty transaction id; a content-card create among
    them without an object id in its result is written under the id
    [pending-], with an empty [trx_id]. *)
Theorem trx_in_block_out_of_range b o r i my :
  (length (transactions b) ≤ N.to_nat i)%nat →
  result_which r ≠ 1%N →
  trx_id_of b i = "" ∧
  on_block_operation b
    (Some {| op := content_card_create o; result := r; trx_in_block := i |})
    my
  = Some (handle_content_card_create o (block_num b) (timestamp b) "" "" my) ∧
  inserted_id (content_card_create_sql my o (block_num b) (timestamp b) "" "")
  = Some (escape_string my "pending-").
Proof.
  intros Hrange Hresult.
  assert (Htrx : trx_id_of b i = "").
  { unfold trx_id_of. by rewrite (proj2 (lookup_ge_None _ _) Hrange). }
  split; [done|]. split; [|done].
  unfold on_block_operation. cbn [op result trx_in_block which].
  rewrite get_object_id_from_result_total, Htrx.
  by destruct r.
Qed.

(** ** Texts with a zero byte *)

Lemma up_to_zero_app (s t : string) :
  up_to_zero (s +:+ String Ascii.zero t) = up_to_zero s.
Proof.
  induction s as [|c s IH]; [done|].
  simpl. destruct (Ascii.eqb c Ascii.zero); [done|].
  by rewrite IH.
Qed.

(** X18.  On a live connection, what follows a zero byte in a text is not
    written: [escape_string] gives for the text what it gives for the part
    before the zero byte. *)
Theorem escape_string_stops_at_zero my conn (s t : string) :
  pg_conn my = Some conn →
  escape_string my (s +:+ String Ascii.zero t) = escape_string my s.
Proof.
  intros Hlive. rewrite !(escape_string_live _ _ _ Hlive).
  unfold quoted_text. by rewrite up_to_zero_app.
Qed.

End plugin_more_facts.

(** * More facts about the room operations *)

Lemma room_update_validate_returns o :
  room_update_operation.validate o = returns () ↔
  (0 ≤ amount (room_update_operation.fee o))%Z ∧
  room_update_operation.name o ≠ "" ∧
  (String.length (room_update_operation.name o) ≤ 256)%nat.
Proof.
  unfold room_update_operation.validate, FC_ASSERT.
  destruct o as [fee owner room name]. simpl.
  destruct (Z.leb_spec 0 (amount fee)); simpl.
  2: { split; [done|]. intros (? & _). lia. }
  destruct name as [|a name]; simpl.
  { split; [done|]. by intros (_ & ? & _). }
  destruct (Nat.leb_spec (String.length name) 255); simpl.
  2: { split; [done|]. intros (_ & _ & ?). lia. }
  split; [|done]. intros _. repeat split; try done. lia.
Qed.

Lemma room_add_participant_validate_returns o :
  room_add_participant_operation.validate o = returns () ↔
  (0 ≤ amount (room_add_participant_operation.fee o))%Z ∧
  room_add_participant_operation.content_key o ≠ "".
Proof.
  unfold room_add_participant_operation.validate, FC_ASSERT.
  destruct o as [fee owner room participant content_key]. simpl.
  destruct (Z.leb_spec 0 (amount fee)); simpl.
  2: { split; [done|]. intros (? & _). lia. }
  destruct content_key as [|a content_key]; simpl.
  { split; [done|]. by intros (_ & ?). }
  done.
Qed.

Lemma room_remove_participant_validate_returns o :
  room_remove_participant_operation.validate o = returns () ↔
  (0 ≤ amount (room_remove_participant_operation.fee o))%Z.
Proof.
  unfold room_remove_participant_operation.validate, FC_ASSERT.
  destruct o as [fee owner participant_id]. simpl.
  destruct (Z.leb_spec 0 (amount fee)); simpl; [done|].
  split; [done|]. lia.
Qed.

Lemma room_rotate_key_validate_returns o :
  room_rotate_key_operation.validate o = returns () ↔
  (0 ≤ amount (room_rotate_key_operation.fee o))%Z ∧
  room_rotate_key_operation.new_room_key o ≠ "" ∧
  room_rotate_key_operation.participant_keys o ≠ [].
Proof.
  unfold room_rotate_key_operation.validate, FC_ASSERT.
  destruct o as [fee new_room_key participant_keys]. simpl.
  destruct (Z.leb_spec 0 (amount fee)); simpl.
  2: { split; [done|]. intros (? & _). lia. }
  destruct new_room_key as [|a new_room_key]; simpl.
  { split; [done|]. by intros (_ & ? & _). }
  destruct participant_keys as [|entry participant_keys]; simpl.
  { split; [done|]. by intros (_ & _ & ?). }
  done.
Qed.

(** X10.  The other room operations validate as follows, and throw
    otherwise: an update when the fee amount is not negative and the name
    is not empty and has at most 256 characters; the addition of a
    participant when the fee amount is not negative and the content key is
    not empty; the removal of a participant when the fee amount is not
    negative; a key rotation when the fee amount is not negative, the new
    room key is not empty and there is at least one participant key. *)
Theorem room_validate_iff :
  (∀ o, room_update_operation.validate o = returns () ↔
        (0 ≤ amount (room_update_operation.fee o))%Z ∧
        room_update_operation.name o ≠ "" ∧
        (String.length (room_update_operation.name o) ≤ 256)%nat) ∧
  (∀ o, room_add_participant_operation.validate o = returns () ↔
        (0 ≤ amount (room_add_participant_operation.fee o))%Z ∧
        room_add_participant_operation.content_key o ≠ "") ∧
  (∀ o, room_remove_participant_operation.validate o = returns () ↔
        (0 ≤ amount (room_remove_participant_operation.fee o))%Z) ∧
  (∀ o, room_rotate_key_operation.validate o = returns () ↔
        (0 ≤ amount (room_rotate_key_operation.fee o))%Z ∧
        room_rotate_key_operation.new_room_key o ≠ "" ∧
        room_rotate_key_operation.participant_keys o ≠ []).
Proof.
  split; [apply room_update_validate_returns|].
  split; [apply room_add_participant_validate_returns|].
  split; [apply room_remove_participant_validate_returns|].
  apply room_rotate_key_validate_returns.
Qed.

(** X11.  What a room may be created with, it may be updated with: an
    update that has the fee and the name of a create that validates,
    validates too. *)
Theorem room_create_valid_update_valid (c : room_create_operation.t)
    (u : room_update_operation.t) :
  room_update_operation.fee u = room_create_operation.fee c →
  room_update_operation.name u = room_create_operation.name c →
  room_create_operation.validate c = returns () →
  room_update_operation.validate u = returns ().
Proof.
  intros Hfee Hname Hcreate. apply room_update_validate_returns.
  rewrite Hfee, Hname.
  unfold room_create_operation.validate, FC_ASSERT in Hcreate.
  destruct c as [fee owner name room_key]. simpl in *.
  destruct (Z.leb_spec 0 (amount fee)); [|done]. simpl in Hcreate.
  destruct name as [|a name]; [done|]. simpl in Hcreate.
  destruct (Nat.leb_spec (String.length name) 255); [|done].
  repeat split; try done. simpl. lia.
Qed.

(** X12.  [room_create_operation::validate] reports the first check that
    fails, in the order fee, empty name, long name, empty key: it throws
    for the fee whatever the name and the key are, for an empty name
    whatever the key is, and for the key only when fee and name pass. *)
Theorem room_create_validate_throws (o : room_create_operation.t) what :
  room_create_operation.validate o = throws what ↔
  ((amount (room_create_operation.fee o) < 0)%Z ∧ what = "") ∨
  ((0 ≤ amount (room_create_operation.fee o))%Z ∧
   room_create_operation.name o = "" ∧
   what = "Room name cannot be empty") ∨
  ((0 ≤ amount (room_create_operation.fee o))%Z ∧
   (256 < String.length (room_create_operation.name o))%nat ∧
   what = "Room name too long (max 256 characters)") ∨
  ((0 ≤ amount (room_create_operation.fee o))%Z ∧
   room_create_operation.name o ≠ "" ∧
   (String.length (room_create_operation.name o) ≤ 256)%nat ∧
   room_create_operation.room_key o = "" ∧
   what = "Room key cannot be empty").
Proof.
  unfold room_create_operation.validate, FC_ASSERT.
  destruct o as [fee owner name room_key]. simpl.
  destruct (Z.leb_spec 0 (amount fee)); simpl.
  2: { split.
       - intros [= <-]. by left.
       - intros [[_ ->]|[(? & _)|[(? & _)|(? & _)]]]; [done|lia..]. }
  destruct name as [|a name]; simpl.
  { split.
    - intros [= <-]. right. by left.
    - intros [[? _]|[(_ & _ & ->)|[(_ & ? & _)|(_ & ? & _)]]];
        [lia|done|simpl in *; lia|done]. }
  destruct (Nat.leb_spec (String.length name) 255); simpl.
  2: { split.
       - intros [= <-]. right. right. left. split; [done|]. split; [lia|done].
       - intros [[? _]|[(_ & ? & _)|[(_ & _ & ->)|(_ & _ & ? & _)]]];
           [lia|done|done|lia]. }
  destruct room_key as [|c room_key]; simpl.
  { split.
    - intros [= <-]. do 3 right. repeat split; try done. lia.
    - intros [[? _]|[(_ & ? & _)|[(_ & ? & _)|(_ & _ & _ & _ & ->)]]];
        [lia|done|lia|done]. }
  split; [done|].
  intros [[? _]|[(_ & ? & _)|[(_ & ? & _)|(_ & _ & _ & ? & _)]]];
    [lia|done|lia|done].
Qed.

(** X13.  Whoever pays the fee of a room operation has to authorise it:
    collecting the required active authorities of a create, an update, an
    addition or a removal of a participant adds the owner, who is the fee
    payer, and drops none of the accounts collected before. *)
Theorem room_fee_payer_is_required (a : gset object_id_type) :
  (∀ o, room_create_fee_payer o
        ∈ room_create_get_required_active_authorities o a ∧
        a ⊆ room_create_get_required_active_authorities o a) ∧
  (∀ o, room_update_operation.fee_payer o
        ∈ room_update_operation.get_required_active_authorities o a ∧
        a ⊆ room_update_operation.get_required_active_authorities o a) ∧
  (∀ o, room_add_participant_operation.fee_payer o
        ∈ room_add_participant_operation.get_required_active_authorities o a ∧
        a ⊆ room_add_participant_operation.get_required_active_authorities o a) ∧
  (∀ o, room_remove_participant_operation.fee_payer o
        ∈ room_remove_participant_operation.get_required_active_authorities o a ∧
        a ⊆ room_remove_participant_operation.get_required_active_authorities
              o a).
Proof.
  repeat split;
    unfold room_create_fee_payer, room_create_get_required_active_authorities,
      room_update_operation.fee_payer,
      room_update_operation.get_required_active_authorities,
      room_add_participant_operation.fee_payer,
      room_add_participant_operation.get_required_active_authorities,
      room_remove_participant_operation.fee_payer,
      room_remove_participant_operation.get_required_active_authorities;
    set_solver.
Qed.

(** * The facts at concrete blocks *)

(** C1 at a block that creates the card [1.7.3] and then removes it. *)
Lemma on_block_replay_witness :
  chain_order (get_applied_operations ex_create_then_remove) = true ∧
  ∃ my1 my2,
    on_block (pg := permissive) ex_create_then_remove (ex_block 101) ex_plugin
    = Some my1 ∧
    on_block (pg := permissive) ex_create_then_remove (ex_block 101) my1
    = Some my2 ∧
    ∀ table id, row_of my2 table id = row_of my1 table id.
Proof.
  split; [vm_compute; reflexivity|].
  apply (on_block_replay (pg := permissive)).
  - intros id. reflexivity.
  - vm_compute. reflexivity.
Defined.

(** The order of the chain is what the replay rests on.  In a list of applied
    operations that removes the id [1.7.3] before the operation that creates
    it, which no chain produces, the removal finds no row and the creation
    inserts one that is not removed (kind 41); projected again, the removal
    marks that row and the creation, now a conflict, leaves the mark
    (kind 43). *)
Lemma replay_of_remove_before_create :
  chain_order (get_applied_operations ex_remove_then_create) = false ∧
  ∃ my1 my2,
    on_block (pg := permissive) ex_remove_then_create (ex_block 101) ex_plugin
    = Some my1 ∧
    on_block (pg := permissive) ex_remove_then_create (ex_block 101) my1
    = Some my2 ∧
    row_of my1 "indexer_content_cards" "1.7.3" ≫= (.!! "is_removed")
    = Some (SqlBool false) ∧
    row_of my2 "indexer_content_cards" "1.7.3" ≫= (.!! "is_removed")
    = Some (SqlBool true) ∧
    row_of my1 "indexer_content_cards" "1.7.3" ≫= (.!! "operation_type")
    = Some (SqlInt 41) ∧
    row_of my2 "indexer_content_cards" "1.7.3" ≫= (.!! "operation_type")
    = Some (SqlInt 43).
Proof.
  split; [vm_compute; reflexivity|].
  eexists _, _. split; [vm_compute; reflexivity|].
  split; [vm_compute; reflexivity|].
  repeat split; vm_compute; reflexivity.
Qed.

(** C2 as the spec states it fails at a generic result, for which
    [get_object_id_from_result] gives the empty string and not the set, and
    at an object-id result, for which the bulk branch takes the empty set
    and not the identifier. *)
Lemma resolution_counterexample :
  get_object_id_from_result (generic_result {| new_objects := [ex_card] |})
  = Some "" ∧
  identifiers_in "" = [] ∧
  object_id_to_string
  <$> resolved_identifiers (generic_result {| new_objects := [ex_card] |})
  = ["1.7.3"] ∧
  new_objects_of_result (object_id_result ex_card) = Some [] ∧
  resolved_identifiers (object_id_result ex_card) = [ex_card].
Proof. repeat split; vm_compute; reflexivity. Qed.

(** C3 as the spec states it fails at the transaction id: after the update
    the row has the block number and the kind of the update and the
    transaction id of the create. *)
Lemma update_on_conflict_counterexample :
  ∃ my1,
    on_block (pg := permissive) ex_update_of_card (ex_block 101)
      ex_plugin_with_card
    = Some my1 ∧
    trx_id_of (ex_block 101) 0 = "bb22" ∧
    row_of my1 "indexer_content_cards" "1.7.3" ≫= (.!! "trx_id")
    = Some (SqlText "aa11") ∧
    row_of my1 "indexer_content_cards" "1.7.3" ≫= (.!! "block_num")
    = Some (SqlInt 101) ∧
    row_of my1 "indexer_content_cards" "1.7.3" ≫= (.!! "operation_type")
    = Some (SqlInt 42) ∧
    row_of my1 "indexer_content_cards" "1.7.3" ≫= (.!! "description")
    = Some (SqlText "edited").
Proof.
  eexists. split; [vm_compute; reflexivity|].
  repeat split; vm_compute; reflexivity.
Qed.

(** C3, amended, at the same update. *)
Lemma update_on_conflict_witness :
  ∃ conn' new,
    pg_conn
      (handle_content_card_update (pg := permissive) ex_update 101 1700000303
         "bb22" "1.7.3" ex_plugin_with_card)
    = Some conn' ∧
    rows conn' !! ("indexer_content_cards", "1.7.3") = Some new ∧
    new !! "url" = Some (SqlText "ipfs://moved") ∧
    new !! "block_num" = Some (SqlInt 101) ∧
    new !! "trx_id" = Some (SqlText "aa11") ∧
    new !! "is_removed" = Some (SqlBool false).
Proof.
  destruct (update_on_conflict (pg := permissive) ex_plugin_with_card _
              ex_update 101 1700000303 "bb22" "1.7.3" ex_card_row
              eq_refl eq_refl eq_refl)
    as (conn' & new & Hconn & Hrows & Hnew & Hold).
  exists conn', new. split; [exact Hconn|].
  split; [rewrite Hrows; apply lookup_insert_eq|].
  split; [exact (proj1 (Forall_lookup _ _) Hnew 1 _ eq_refl)|].
  split; [exact (proj1 (Forall_lookup _ _) Hnew 6 _ eq_refl)|].
  split; (rewrite Hold; [reflexivity|by apply (bool_decide_unpack _)]).
Defined.



(** The other entries of a bulk create of three come under other ids, within
    the width of the column. *)
Ltac other_entries :=
  clear; intros j Hlt Hne;
  do 3 (destruct j as [|j];
        [first [by destruct Hne
               |split; [intros Heq; vm_compute in Heq; discriminate Heq
                       |vm_compute; lia]]|]);
  simpl in Hlt; lia.

(** C5 at a bulk create of three entries with one new object, on empty
    tables: three statements, and a row for each entry. *)
Lemma handle_permission_create_many_sends_witness :
  ∃ conn',
    pg_conn
      (handle_permission_create_many (pg := permissive) ex_create_many 101
         1700000303 "bb22" [ex_permission] ex_plugin)
    = Some conn' ∧
    inserted_id <$> sent conn'
    = [Some (Literal "1.8.4"); Some (Literal "pending-bb22-1");
       Some (Literal "pending-bb22-2")] ∧
    rows conn' !! ("indexer_permissions", "1.8.4")
    = Some (permission_row "1.8.4" "1.2.5" "1.2.6" "read" "1.7.3" "a" 101
              1700000303 "bb22" 64) ∧
    rows conn' !! ("indexer_permissions", "pending-bb22-1")
    = Some (permission_row "pending-bb22-1" "1.2.5" "1.2.6" "read" "1.7.3" "b"
              101 1700000303 "bb22" 64) ∧
    rows conn' !! ("indexer_permissions", "pending-bb22-2")
    = Some (permission_row "pending-bb22-2" "1.2.5" "1.2.6" "read" "1.7.3" "c"
              101 1700000303 "bb22" 64).
Proof.
  destruct (handle_permission_create_many_sends (pg := permissive)
              ex_create_many 101 1700000303 "bb22" [ex_permission] ex_plugin _
              eq_refl)
    as (conn' & sqls & Hconn & Hsqls & Hsent & Hrow & _).
  exists conn'. split; [exact Hconn|].
  split; [rewrite Hsent, Hsqls; vm_compute; reflexivity|].
  rewrite Hsqls in Hrow.
  split; [|split].
  - eapply (Hrow 0%nat (ex_item "a"));
      [reflexivity|reflexivity|reflexivity|vm_compute; reflexivity|other_entries].
  - eapply (Hrow 1%nat (ex_item "b"));
      [reflexivity|reflexivity|reflexivity|vm_compute; reflexivity|other_entries].
  - eapply (Hrow 2%nat (ex_item "c"));
      [reflexivity|reflexivity|reflexivity|vm_compute; reflexivity|other_entries].
Defined.

(** C6 at a second create for the card [1.7.3] and a second create for the
    permission [1.8.4], both in block 101 and transaction [bb22]. *)
Lemma create_on_conflict_witness :
  (∃ conn' new,
     pg_conn
       (handle_content_card_create (pg := permissive) ex_create' 101 1700000303
          "bb22" "1.7.3" ex_plugin_with_card)
     = Some conn' ∧
     rows conn' !! ("indexer_content_cards", "1.7.3") = Some new ∧
     new !! "hash" = Some (SqlText "ef01") ∧
     new !! "subject_account" = Some (SqlText "1.2.5") ∧
     new !! "block_num" = Some (SqlInt 100) ∧
     new !! "trx_id" = Some (SqlText "aa11") ∧
     new !! "operation_type" = Some (SqlInt 41)) ∧
  (∃ conn' new,
     pg_conn
       (handle_permission_create (pg := permissive) ex_permission_create 101
          1700000303 "bb22" "1.8.4" ex_plugin_with_permission)
     = Some conn' ∧
     rows conn' !! ("indexer_permissions", "1.8.4") = Some new ∧
     new !! "permission_type" = Some (SqlText "read") ∧
     new !! "content_key" = Some (SqlText "pk2") ∧
     new !! "block_num" = Some (SqlInt 100) ∧
     new !! "trx_id" = Some (SqlText "aa11")).
Proof.
  split.
  - destruct (create_on_conflict (pg := permissive) ex_plugin_with_card _ eq_refl)
      as [Hcard _].
    destruct (Hcard ex_create' 101%N 1700000303%N "bb22" "1.7.3" ex_card_row
                eq_refl eq_refl)
      as (conn' & new & Hconn & Hrows & Hnew & Hold).
    exists conn', new. split; [exact Hconn|].
    split; [rewrite Hrows; apply lookup_insert_eq|].
    split; [exact (proj1 (Forall_lookup _ _) Hnew 0 _ eq_refl)|].
    repeat split; (rewrite Hold; [reflexivity|by apply (bool_decide_unpack _)]).
  - destruct (create_on_conflict (pg := permissive) ex_plugin_with_permission _
                eq_refl)
      as [_ Hpermission].
    destruct (Hpermission ex_permission_create 101%N 1700000303%N "bb22" "1.8.4"
                ex_permission_row eq_refl eq_refl)
      as (conn' & new & Hconn & Hrows & Hnew & Hold).
    exists conn', new. split; [exact Hconn|].
    split; [rewrite Hrows; apply lookup_insert_eq|].
    split; [exact (proj1 (Forall_lookup _ _) Hnew 0 _ eq_refl)|].
    split; [exact (proj1 (Forall_lookup _ _) Hnew 1 _ eq_refl)|].
    repeat split; (rewrite Hold; [reflexivity|by apply (bool_decide_unpack _)]).
Defined.

(** C7 at the removal of the card [1.7.3], with its row and without. *)
Lemma remove_marks_row_witness :
  (∃ conn' new,
     pg_conn
       (handle_content_card_remove (pg := permissive) ex_remove 101 1700000303
          "bb22" ex_plugin_with_card)
     = Some conn' ∧
     rows conn' !! ("indexer_content_cards", "1.7.3") = Some new ∧
     new !! "is_removed" = Some (SqlBool true) ∧
     new !! "operation_type" = Some (SqlInt 43) ∧
     new !! "hash" = Some (SqlText "abcd") ∧
     new !! "trx_id" = Some (SqlText "aa11")) ∧
  (∃ conn',
     pg_conn
       (handle_content_card_remove (pg := permissive) ex_remove 101 1700000303
          "bb22" ex_plugin)
     = Some conn' ∧
     rows conn' = ∅).
Proof.
  split.
  - destruct (remove_marks_row (pg := permissive) ex_plugin_with_card _ eq_refl)
      as [Hcard _].
    destruct (Hcard ex_remove 101%N 1700000303%N "bb22" eq_refl)
      as (conn' & Hconn & new & Hrows & Hnew & Hold).
    exists conn', new. split; [exact Hconn|].
    split; [rewrite Hrows; apply lookup_insert_eq|].
    split; [exact (proj1 (Forall_lookup _ _) Hnew 0 _ eq_refl)|].
    split; [exact (proj1 (Forall_lookup _ _) Hnew 3 _ eq_refl)|].
    repeat split; (rewrite Hold; [reflexivity|by apply (bool_decide_unpack _)]).
  - destruct (remove_marks_row (pg := permissive) ex_plugin _ eq_refl)
      as [Hcard _].
    destruct (Hcard ex_remove 101%N 1700000303%N "bb22" eq_refl)
      as (conn' & Hconn & Hrows).
    exists conn'. split; [exact Hconn|exact Hrows].
Defined.

(** C8 at an operation of tag 0 between a content-card create and a
    permission create. *)
Lemma on_block_skips_other_operations_witness :
  on_block_operation (pg := permissive) (ex_block 101)
    (applied (other_operation 0 eq_refl) void_result) ex_plugin
  = Some ex_plugin ∧
  on_block (pg := permissive) ex_with_other_operation (ex_block 101) ex_plugin
  = on_block (pg := permissive)
      {| get_applied_operations :=
           [applied (content_card_create ex_create) (object_id_result ex_card);
            applied (permission_create ex_permission_create)
              (object_id_result ex_permission)] |}
      (ex_block 101) ex_plugin.
Proof.
  exact (on_block_skips_other_operations (pg := permissive)
           ex_with_other_operation (ex_block 101)
           {| op := other_operation 0 eq_refl; result := void_result;
              trx_in_block := 0 |}
           [applied (content_card_create ex_create) (object_id_result ex_card)]
           [applied (permission_create ex_permission_create)
              (object_id_result ex_permission)]
           ex_plugin eq_refl eq_refl).
Defined.

(** C9 at block 101, with the start block at 200. *)
Lemma on_block_below_start_block_witness :
  on_block (pg := permissive) ex_create_then_remove (ex_block 101)
    ex_plugin_from_200
  = Some ex_plugin_from_200.
Proof.
  apply (on_block_below_start_block (pg := permissive)). vm_compute. reflexivity.
Defined.

(** X1 at the update of the card [1.7.3]: the transaction id stays. *)
Lemma on_block_keeps_columns_witness :
  ∃ my1 new,
    on_block (pg := permissive) ex_update_of_card (ex_block 101)
      ex_plugin_with_card
    = Some my1 ∧
    row_of my1 "indexer_content_cards" "1.7.3" = Some new ∧
    new !! "trx_id" = ex_card_row !! "trx_id".
Proof.
  apply (on_block_keeps_columns (pg := permissive) ex_update_of_card
           (ex_block 101) ex_plugin_with_card "indexer_content_cards" "1.7.3"
           ex_card_row "trx_id").
  - reflexivity.
  - by apply (bool_decide_unpack _).
Defined.

(** X2 at a create for the id of a removed card. *)
Lemma on_block_keeps_removed_witness :
  ∃ my1 new,
    on_block (pg := permissive) ex_create_again (ex_block 101)
      ex_plugin_with_removed_card
    = Some my1 ∧
    row_of my1 "indexer_content_cards" "1.7.3" = Some new ∧
    new !! "is_removed" = Some (SqlBool true).
Proof.
  apply (on_block_keeps_removed (pg := permissive) ex_create_again
           (ex_block 101) ex_plugin_with_removed_card "indexer_content_cards"
           "1.7.3" ex_removed_card_row).
  - reflexivity.
  - vm_compute. reflexivity.
Defined.

(** X4 at the create of the card [1.7.3] on empty tables. *)
Lemma create_inserts_row_witness :
  ∃ conn',
    pg_conn
      (handle_content_card_create (pg := permissive) ex_create 101 1700000303
         "bb22" "1.7.3" ex_plugin)
    = Some conn' ∧
    rows conn' !! ("indexer_content_cards", "1.7.3")
    = Some
        (content_card_row "1.7.3" "1.2.5" "abcd" "ipfs://abcd" "text" "first"
           "k1" "{}" 101 1700000303 "bb22" 41).
Proof.
  destruct (create_inserts_row (pg := permissive) ex_plugin _ eq_refl)
    as (Hcreate & _ & _).
  destruct (Hcreate ex_create 101%N 1700000303%N "bb22" "1.7.3" eq_refl eq_refl
              eq_refl)
    as (conn' & Hconn & Hrows).
  exists conn'. split; [exact Hconn|]. rewrite Hrows. apply lookup_insert_eq.
Defined.

(** X5 at the update of the card [1.7.3]. *)
Lemma accepted_write_is_stored_witness :
  ∃ new,
    row_of
      (handle_content_card_update (pg := permissive) ex_update 101 1700000303
         "bb22" "1.7.3" ex_plugin_with_card)
      "indexer_content_cards" "1.7.3"
    = Some new ∧
    new !! "description" = Some (SqlText "edited").
Proof.
  destruct (accepted_write_is_stored (pg := permissive) ex_plugin_with_card _
              eq_refl)
    as (Hupdate & _).
  destruct (Hupdate ex_update 101%N 1700000303%N "bb22" "1.7.3" eq_refl eq_refl)
    as (new & Hrow & Hnew).
  exists new. split; [exact Hrow|].
  exact (proj1 (Forall_lookup _ _) Hnew 3 _ eq_refl).
Defined.

(** X6 at the plugin before it has connected. *)
Lemma without_connection_witness :
  handle_content_card_create (pg := permissive) ex_create 101 1700000303 "bb22"
    "1.7.3" ex_plugin_off
  = ex_plugin_off ∧
  on_block (pg := permissive) ex_create_then_remove (ex_block 101) ex_plugin_off
  = Some ex_plugin_off.
Proof.
  destruct (without_connection (pg := permissive) ex_plugin_off eq_refl)
    as (Hcreate & _ & _ & _ & _ & _ & Hblock).
  split; [apply Hcreate|apply Hblock].
Defined.

(** X7 at a server that refuses everything: both statements are sent, no
    row is stored. *)
Lemma on_block_runs_accepted_witness :
  ∃ conn',
    on_block (pg := refusing) ex_create_then_remove (ex_block 101) ex_plugin
    = Some (with_conn ex_plugin conn') ∧
    length (sent conn') = 2%nat ∧
    rows conn' = ∅.
Proof.
  destruct (on_block_runs_accepted (pg := refusing) ex_create_then_remove
              (ex_block 101) ex_plugin _ eq_refl)
    as (conn' & Hblock & Hsent & Hrows).
  exists conn'. split; [exact Hblock|].
  split; [by rewrite Hsent|by rewrite Hrows].
Defined.

(** X11 at a room named [lobby]. *)
Lemma room_create_valid_update_valid_witness :
  room_update_operation.validate ex_room_update = returns ().
Proof.
  apply (room_create_valid_update_valid ex_room_create ex_room_update);
    reflexivity.
Defined.

(** X16 at the card [1.7.3], created in block 101 and removed in block 102. *)
Lemma create_then_remove_witness :
  row_of
    (handle_content_card_remove (pg := permissive) ex_remove 102 1700000306
       "cc33"
       (handle_content_card_create (pg := permissive) ex_create 101 1700000303
          "bb22" "1.7.3" ex_plugin))
    "indexer_content_cards" "1.7.3"
  = Some
      (assign
         (content_card_row "1.7.3" "1.2.5" "abcd" "ipfs://abcd" "text" "first"
            "k1" "{}" 101 1700000303 "bb22" 41)
         (removal_fields 102 1700000306 43)).
Proof.
  exact (create_then_remove (pg := permissive) ex_plugin _ ex_create ex_remove
           101 1700000303 "bb22" "1.7.3" 102 1700000306 "cc33"
           eq_refl eq_refl eq_refl eq_refl eq_refl eq_refl).
Defined.

(** X17 at an operation with index 5 in a block of one transaction. *)
Lemma trx_in_block_out_of_range_witness :
  trx_id_of (ex_block 101) 5 = "" ∧
  on_block_operation (pg := permissive) (ex_block 101)
    (Some {| op := content_card_create ex_create; result := void_result;
             trx_in_block := 5 |})
    ex_plugin
  = Some
      (handle_content_card_create (pg := permissive) ex_create 101 1700000303
         "" "" ex_plugin) ∧
  inserted_id
    (content_card_create_sql (pg := permissive) ex_plugin ex_create 101
       1700000303 "" "")
  = Some (Literal "pending-").
Proof.
  apply (trx_in_block_out_of_range (pg := permissive) (ex_block 101) ex_create
           void_result 5 ex_plugin).
  - simpl. lia.
  - discriminate.
Defined.

(** X18 at a hash with a zero byte after [ab]. *)
Lemma escape_string_stops_at_zero_witness :
  escape_string (pg := permissive) ex_plugin ("ab" +:+ String Ascii.zero "cd")
  = Literal "ab".
Proof.
  rewrite (escape_string_stops_at_zero (pg := permissive) ex_plugin _ "ab" "cd"
             eq_refl).
  reflexivity.
Defined.
